(** * MirrorNet: notification badges, user provisioning, circle detail page

  A shallow embedding of three pieces of the MirrorNet client:

  - the notification effect of the application layout
    ([fetchNotifications] in the layout component),
  - [createNewUserData] of [src/lib/data.ts], over a small model of the
    Firestore document store and its write batches,
  - [MemberListItem] and [GoalDialog] of [src/app/circles/[id]/page.tsx].

  Asynchronous code is modelled by its settled outcome together with the
  list of requests it issued; React state is passed explicitly. *)

From stdpp Require Import gmap strings list fin_maps pretty.
From Stdlib Require Import ZArith Lia Ascii.

Local Set Warnings "-register-all".

(** ** JavaScript values used by the code *)

Module JS.

(** A settled promise: fulfilled with a value or rejected with a reason. *)
Inductive Settled (A : Type) : Type :=
| Fulfilled (a : A)
| Rejected (reason : string).
Arguments Fulfilled {A} a.
Arguments Rejected {A} reason.

Definition isFulfilled {A} (s : Settled A) : bool :=
  match s with Fulfilled _ => true | Rejected _ => false end.

Definition isRejected {A} (s : Settled A) : bool := negb (isFulfilled s).

(** Truthiness of [string | undefined]: [undefined] and the empty string
    are falsy, every other string is truthy.  This is [!!x]. *)
Definition truthy_string (x : option string) : bool :=
  match x with
  | Some s => negb (String.eqb s "")
  | None => false
  end.

(** Truthiness of [boolean | undefined]. *)
Definition truthy_bool (x : option bool) : bool :=
  match x with
  | Some b => b
  | None => false
  end.

(** [a || b] on strings, with [a : string | null | undefined]. *)
Definition or_string (a : option string) (b : string) : string :=
  if truthy_string a then default "" a else b.

(** [a || b] when [b] may be [undefined] as well. *)
Definition or_else (a b : option string) : option string :=
  if truthy_string a then a else b.

End JS.
Export JS.

(** ** The entity types of [src/lib/data.ts]

  Aggregate score arrays ([ecoScores], [traits], ...) hold floating-point
  averages and are read by none of the functions modelled here; they are
  left out of the records.  Populated sub-objects ([fromUser], [toUser],
  [members]) are left out for the same reason. *)

Record Timestamp := { seconds : Z; nanoseconds : Z }.

Module User.
Record t := mk {
  id : string;
  displayName : string;
  firstName : option string;
  lastName : option string;
  email : string;
  photoUrl : string;
  isPremium : option bool;
  isAdmin : option bool;
  displayName_lowercase : option string;
  revealTokens : option Z;
  createdAt : option Timestamp;
  stripeId : option string
}.
End User.

Inductive CircleName := Friends | Family | Work | General.

#[global] Instance CircleName_eq_dec : EqDecision CircleName.
Proof. solve_decision. Defined.

Module Circle.
Record t := mk {
  id : string;
  ownerId : string;
  name : CircleName;
  memberIds : list string
}.
End Circle.

Module Invite.
Inductive Status := pending | accepted | declined.

#[global] Instance Status_eq_dec : EqDecision Status.
Proof. solve_decision. Defined.

(** [status === 'pending'] *)
Definition is_pending (s : Status) : bool :=
  match s with pending => true | _ => false end.

Record t := mk {
  id : string;
  fromUserId : string;
  toEmail : option string;
  toUserId : option string;
  circleId : option string;
  circleName : option CircleName;
  status : Status;
  createdAt : Timestamp
}.
End Invite.

Module RevealRequest.
Inductive Status := pending | accepted | declined.

#[global] Instance Status_eq_dec : EqDecision Status.
Proof. solve_decision. Defined.

Record t := mk {
  id : string;
  fromUserId : string;
  toUserId : string;
  ratingId : string;
  status : Status;
  createdAt : Timestamp
}.
End RevealRequest.

Module FamilyGoal.
Inductive Status := pending | active | declined | completed.

#[global] Instance Status_eq_dec : EqDecision Status.
Proof. solve_decision. Defined.

Record t := mk {
  id : string;
  fromUserId : string;
  toUserId : string;
  trait : string;
  status : Status;
  createdAt : Timestamp;
  tip : option string
}.
End FamilyGoal.

(** ** The notification effect of the layout component *)

Module Layout.

(** The three data-access reads the effect can issue. *)
Inductive Request :=
| ReqReceivedInvites (userId : string)
| ReqRevealRequests (userId : string)
| ReqFamilyGoals (userId : string).

#[global] Instance Request_eq_dec : EqDecision Request.
Proof. solve_decision. Defined.

(** A promise, seen from the caller: the requests issued to create it, in
    order, and how it settles. *)
Record Promise (A : Type) := mkPromise {
  issued : list Request;
  outcome : Settled A
}.
Arguments mkPromise {A} issued outcome.
Arguments issued {A} p.
Arguments outcome {A} p.

(** [Promise.resolve(v)]: no request, fulfilled. *)
Definition Promise_resolve {A} (v : A) : Promise A :=
  mkPromise [] (Fulfilled v).

(** [Promise.all([p1, p2, p3])]: the three promises have been created (so
    every request of each has been issued) before the combinator runs; it
    fulfils with the three values when all fulfil and rejects as soon as
    one rejects.  Which rejection wins when several reject depends on
    timing; the model reports the first in array order. *)
Definition Promise_all3 {A B C} (p1 : Promise A) (p2 : Promise B) (p3 : Promise C)
  : Promise (A * B * C) :=
  mkPromise (issued p1 ++ issued p2 ++ issued p3)
    match outcome p1, outcome p2, outcome p3 with
    | Fulfilled a, Fulfilled b, Fulfilled c => Fulfilled (a, b, c)
    | Rejected r, _, _ => Rejected r
    | _, Rejected r, _ => Rejected r
    | _, _, Rejected r => Rejected r
    end.

(** The data-access functions imported from [@/lib/data]: how each read
    settles for a given user id in the current cycle. *)
Class DataAccess := {
  getReceivedInvitesForUser : string → Settled (list Invite.t);
  getRevealRequestsForUser : string → Settled (list RevealRequest.t);
  getFamilyGoalsForUser : string → Settled (list FamilyGoal.t)
}.

(** The three [useState] cells of [AppLayout]. *)
Record Badges := mkBadges {
  inviteCount : nat;
  revealRequestCount : nat;
  goalSuggestionCount : nat
}.

(** [useState(0)] three times. *)
Definition initialBadges : Badges := mkBadges 0 0 0.

Definition setInviteCount (n : nat) (st : Badges) : Badges :=
  mkBadges n (revealRequestCount st) (goalSuggestionCount st).
Definition setRevealRequestCount (n : nat) (st : Badges) : Badges :=
  mkBadges (inviteCount st) n (goalSuggestionCount st).
Definition setGoalSuggestionCount (n : nat) (st : Badges) : Badges :=
  mkBadges (inviteCount st) (revealRequestCount st) n.

(** [invite => !!invite.circleId && invite.status === 'pending'] *)
Definition actionable (invite : Invite.t) : bool :=
  truthy_string (Invite.circleId invite) && Invite.is_pending (Invite.status invite).

(** [receivedInvites.filter(...)] *)
Definition actionableInvites (receivedInvites : list Invite.t) : list Invite.t :=
  List.filter actionable receivedInvites.

(** What one run of an async function leaves behind. *)
Record Run := mkRun {
  requests : list Request;
  result : Settled unit;
  badges : Badges
}.

Section WithDataAccess.
Context `{DataAccess}.

(** The array handed to [Promise.all]. *)
Definition fetches (user : User.t)
  : Promise (list Invite.t * list RevealRequest.t * list FamilyGoal.t) :=
  Promise_all3
    (mkPromise [ReqReceivedInvites (User.id user)]
               (getReceivedInvitesForUser (User.id user)))
    (if truthy_bool (User.isPremium user)
     then mkPromise [ReqRevealRequests (User.id user)]
                    (getRevealRequestsForUser (User.id user))
     else Promise_resolve [])
    (mkPromise [ReqFamilyGoals (User.id user)]
               (getFamilyGoalsForUser (User.id user))).

(** [fetchNotifications]: await the three reads, then set the three
    counts.  A rejected [await] throws out of the async function before
    any setter runs. *)
Definition fetchNotifications (user : User.t) (st : Badges) : Run :=
  let p := fetches user in
  match outcome p with
  | Fulfilled (receivedInvites, revealRequests, familyGoals) =>
      let st1 := setInviteCount (length (actionableInvites receivedInvites)) st in
      let st2 := setRevealRequestCount (length revealRequests) st1 in
      let st3 := setGoalSuggestionCount (length familyGoals) st2 in
      mkRun (issued p) (Fulfilled tt) st3
  | Rejected r => mkRun (issued p) (Rejected r) st
  end.

(** The effect body: [if (user) { ...; fetchNotifications(); }]. *)
Definition notificationEffect (user : option User.t) (st : Badges) : Run :=
  match user with
  | Some u => fetchNotifications u st
  | None => mkRun [] (Fulfilled tt) st
  end.

End WithDataAccess.

(** The effect re-runs on every change of user or route, each time
    against the data-access layer as it answers then. *)
Fixpoint runCycles (cycles : list (DataAccess * option User.t)) (st : Badges) : Badges :=
  match cycles with
  | [] => st
  | (da, user) :: rest => runCycles rest (badges (@notificationEffect da user st))
  end.

(** *** The reads, over a snapshot of the store

    The bodies of the three data-access functions are not part of the
    sources at hand.  [Backend] is the store as one cycle sees it. *)
Record Backend := mkBackend {
  db_invites : list Invite.t;
  db_familyGoals : list FamilyGoal.t;
  (** the reveal requests the store returns for a user id *)
  db_revealRequestsFor : string → list RevealRequest.t;
  (** the reads that fail in this cycle, with the reason *)
  db_failure : Request → option string
}.

Definition settle {A} (db : Backend) (rq : Request) (a : A) : Settled A :=
  match db_failure db rq with
  | Some reason => Rejected reason
  | None => Fulfilled a
  end.

(** [invite.toUserId == U] *)
Definition invite_to (U : string) (i : Invite.t) : bool :=
  bool_decide (Invite.toUserId i = Some U).

(** Modelled from the spec: [getReceivedInvitesForUser] is missing from the
    sources; the spec counts "invites where toUser == U", so the read
    returns the invites of the store addressed to [U], whatever their
    status or circle. *)
Definition receivedInvitesOf (db : Backend) (U : string) : list Invite.t :=
  List.filter (invite_to U) (db_invites db).

(** a goal suggestion directed at [U]: [toUserId == U] and still [pending] *)
Definition goal_suggested_to (U : string) (g : FamilyGoal.t) : bool :=
  bool_decide (FamilyGoal.toUserId g = U) &&
  bool_decide (FamilyGoal.status g = FamilyGoal.pending).

(** Modelled from the spec: [getFamilyGoalsForUser] is missing from the
    sources; the spec has the aggregator fetch the "family-goal suggestions
    directed at the user" and count "pending goal suggestions", so the read
    returns the goals of the store with [toUserId == U] in status
    [pending]. *)
Definition familyGoalSuggestionsOf (db : Backend) (U : string) : list FamilyGoal.t :=
  List.filter (goal_suggested_to U) (db_familyGoals db).

(** Modelled from the spec: the data-access layer of one cycle, reading the
    snapshot [db]; each read may fail as [db_failure] says. *)
Definition storeAccess (db : Backend) : DataAccess := {|
  getReceivedInvitesForUser U :=
    settle db (ReqReceivedInvites U) (receivedInvitesOf db U);
  getRevealRequestsForUser U :=
    settle db (ReqRevealRequests U) (db_revealRequestsFor db U);
  getFamilyGoalsForUser U :=
    settle db (ReqFamilyGoals U) (familyGoalSuggestionsOf db U)
|}.

End Layout.

(** ** A model of the Firestore document store *)

Module Firestore.

(** Field values.  [VServerTimestamp] is the [serverTimestamp()] sentinel;
    the store keeps it to stand for the commit time. *)
Inductive Value :=
| VNull
| VBool (b : bool)
| VNumber (n : Z)
| VString (s : string)
| VTimestamp (t : Timestamp)
| VServerTimestamp
| VArray (vs : list Value)
| VMap (fs : list (string * Value)).

(** A document is a finite map from field names to values; a document
    reference is a collection name with a document id. *)
Abbreviation Document := (gmap string Value).
Abbreviation DocRef := (string * string)%type.
Abbreviation Store := (gmap (string * string) (gmap string Value)).

(** Fields of a nested map value. *)
Fixpoint assoc_get (k : string) (fs : list (string * Value)) : option Value :=
  match fs with
  | [] => None
  | (k', v) :: rest => if String.eqb k k' then Some v else assoc_get k rest
  end.

(** Replace the field [k] by [f old], or add it with value [v]. *)
Fixpoint assoc_upsert (k : string) (f : Value → Value) (v : Value)
    (fs : list (string * Value)) : list (string * Value) :=
  match fs with
  | [] => [(k, v)]
  | (k', o) :: rest =>
      if String.eqb k k' then (k', f o) :: rest
      else (k', o) :: assoc_upsert k f v rest
  end.

(** Writing [new] over [old] under [{ merge: true }]: a non-empty map is
    merged into an existing map field by field; anything else (scalars,
    arrays, the empty map) replaces the old value. *)
Fixpoint merge_value (old new : Value) {struct new} : Value :=
  match new with
  | VMap ((_ :: _) as nfs) =>
      match old with
      | VMap ofs =>
          VMap ((fix go (nfs : list (string * Value)) (acc : list (string * Value)) :=
                   match nfs with
                   | [] => acc
                   | (k, v) :: rest =>
                       go rest (assoc_upsert k (λ o, merge_value o v) v acc)
                   end) nfs ofs)
      | _ => new
      end
  | _ => new
  end.

(** [set(ref, data, { merge: true })] on the document's fields: fields of
    [data] are written (merged when both sides are maps), the other fields
    of the document stay. *)
Definition merge_doc (old data : gmap string Value) : gmap string Value :=
  union_with (λ n o, Some (merge_value o n)) data old.

(** The writes a batch can stage. *)
Inductive WriteOp :=
| OpSet (ref : DocRef) (data : Document) (merge : bool)
| OpUpdate (ref : DocRef) (data : Document)
| OpDelete (ref : DocRef).

(** A [WriteBatch]: the staged writes, oldest first. *)
Abbreviation WriteBatch := (list WriteOp).

(** [batch.set(ref, data)] and [batch.set(ref, data, { merge: true })] *)
Definition batch_set (batch : WriteBatch) (ref : DocRef) (data : Document)
    (merge : bool) : WriteBatch :=
  batch ++ [OpSet ref data merge].

(** One staged write against the store.  [update] fails on a document that
    does not exist. *)
Definition apply_op (s : Store) (op : WriteOp) : option Store :=
  match op with
  | OpSet ref data false => Some (<[ref := data]> s)
  | OpSet ref data true =>
      Some (<[ref := merge_doc (default ∅ (s !! ref)) data]> s)
  | OpUpdate ref data =>
      match s !! ref with
      | Some old => Some (<[ref := data ∪ old]> s)
      | None => None
      end
  | OpDelete ref => Some (delete ref s)
  end.

(** All staged writes in order; [None] as soon as one fails. *)
Fixpoint apply_ops (s : Store) (ops : WriteBatch) : option Store :=
  match ops with
  | [] => Some s
  | op :: rest =>
      match apply_op s op with
      | Some s' => apply_ops s' rest
      | None => None
      end
  end.

(** The client's world: the store, and how many auto-ids it has drawn. *)
Record World := mkWorld {
  store : Store;
  idsDrawn : nat
}.

(** [batch.commit()]: all-or-nothing.  [unreachable] is the reason the
    request does not reach the store, if it does not. *)
Definition commit (unreachable : option string) (batch : WriteBatch) (w : World)
    : Settled unit * World :=
  match unreachable with
  | Some reason => (Rejected reason, w)
  | None =>
      match apply_ops (store w) batch with
      | Some s' => (Fulfilled tt, mkWorld s' (idsDrawn w))
      | None => (Rejected "not-found", w)
      end
  end.

End Firestore.


(** ** [src/lib/data.ts]: provisioning of a new user *)

Module Data.
Import Firestore.

(** *** The string methods the function uses

    Strings are byte strings here; the methods act on ASCII as JavaScript
    does and leave other bytes alone. *)

(** [s.trim()] *)
Fixpoint trimStart (s : string) : string :=
  match s with
  | String c rest => if Ascii.is_space c then trimStart rest else s
  | EmptyString => EmptyString
  end.

Fixpoint trimEnd (s : string) : string :=
  match s with
  | String c rest =>
      let rest' := trimEnd rest in
      if Ascii.is_space c && String.eqb rest' "" then "" else String c rest'
  | EmptyString => EmptyString
  end.

Definition trim (s : string) : string := trimEnd (trimStart s).

(** [s.toLowerCase()] *)
Definition lower_ascii (c : Ascii.ascii) : Ascii.ascii :=
  let n := Ascii.nat_of_ascii c in
  if (65 <=? n)%nat && (n <=? 90)%nat then Ascii.ascii_of_nat (n + 32) else c.

Fixpoint toLowerCase (s : string) : string :=
  match s with
  | String c rest => String (lower_ascii c) (toLowerCase rest)
  | EmptyString => EmptyString
  end.

(** [s.split(' ')]: never empty, [""] splits into [[""]] *)
Fixpoint split_space (s : string) : list string :=
  match s with
  | EmptyString => [""]
  | String c rest =>
      let parts := split_space rest in
      if Ascii.eqb c " "%char then "" :: parts
      else match parts with
           | p :: ps => String c p :: ps
           | [] => [String c ""]
           end
  end.

(** [parts.join(' ')] *)
Definition join_space (parts : list string) : string := String.concat " " parts.

(** [s.charAt(0)] *)
Definition charAt0 (s : string) : string :=
  match s with
  | String c _ => String c ""
  | EmptyString => ""
  end.

(** A value inside a template literal: [undefined] prints as "undefined". *)
Definition template (x : option string) : string := default "undefined" x.

(** *** The inputs *)

(** The fields of the Firebase Auth user that are read. *)
Record FirebaseUser := mkFirebaseUser {
  uid : string;
  fb_displayName : option string;
  fb_email : option string;
  fb_photoURL : option string
}.

Record AdditionalData := mkAdditionalData {
  ad_firstName : option string;
  ad_lastName : option string
}.

(** The default argument [{}]. *)
Definition noAdditionalData : AdditionalData := mkAdditionalData None None.

(** *** [createNewUserData] *)

(** [doc(db, 'users', fbUser.uid)] *)
Definition userDocRef (fbUser : FirebaseUser) : DocRef := ("users", uid fbUser).

(** [fbUser.displayName || `${firstName} ${lastName}`.trim()] *)
Definition displayName (fbUser : FirebaseUser) (additionalData : AdditionalData) : string :=
  or_string (fb_displayName fbUser)
    (trim (template (ad_firstName additionalData) +:+ " " +:+
           template (ad_lastName additionalData))).

(** [a || b || ''], that is [(a || b) || ''], with [a] and [b] possibly
    [undefined] *)
Definition first_truthy (a b : option string) : string :=
  or_string (or_else a b) "".

(** The object [newUser]. *)
Definition newUser (fbUser : FirebaseUser) (additionalData : AdditionalData) : Document :=
  let displayName := displayName fbUser additionalData in
  <["displayName" := VString displayName]>
  (<["firstName" := VString
       (first_truthy (ad_firstName additionalData)
          ((λ d, default "" (head (split_space d))) <$> fb_displayName fbUser))]>
  (<["lastName" := VString
       (first_truthy (ad_lastName additionalData)
          ((λ d, join_space (tail (split_space d))) <$> fb_displayName fbUser))]>
  (<["displayName_lowercase" := VString (toLowerCase displayName)]>
  (<["email" := VString (or_string (fb_email fbUser) "")]>
  (<["photoUrl" := VString
       (or_string (fb_photoURL fbUser)
          ("https://placehold.co/100x100.png?text=" +:+ charAt0 displayName))]>
  (<["createdAt" := VServerTimestamp]>
  (<["isPremium" := VBool false]>
  (<["revealTokens" := VNumber 0]> ∅)))))))).

(** [{ ...circleData, ownerId: fbUser.uid, memberIds: [fbUser.uid] }] *)
Definition dataWithOwner (fbUser : FirebaseUser) (circleData : Document) : Document :=
  <["memberIds" := VArray [VString (uid fbUser)]]>
  (<["ownerId" := VString (uid fbUser)]> circleData).

Section Provisioning.

(** [defaultCircles], a constant of the module that is not part of the
    sources at hand: one object per default circle. *)
Variable defaultCircles : list Document.

(** The auto-id generator behind [doc(circlesCol)]: the n-th id drawn. *)
Variable autoId : nat → string.

(** [processInvitesForNewUser(batch, uid, email)], not part of the sources
    at hand.  It is handed the batch object, so it may stage writes in it;
    it may read and write the store on its own; it settles. *)
Variable processInvitesForNewUser :
  WriteBatch → string → string → World → Settled unit * WriteBatch * World.

(** Why [batch.commit()] does not reach the store, if it does not. *)
Variable unreachable : option string.

(** [doc(circlesCol)]: a reference with a freshly drawn id. *)
Definition newCircleRef (w : World) : DocRef * World :=
  (("circles", autoId (idsDrawn w)), mkWorld (store w) (S (idsDrawn w))).

(** The [forEach] over [defaultCircles]. *)
Fixpoint stageCircles (fbUser : FirebaseUser) (circles : list Document)
    (batch : WriteBatch) (w : World) : WriteBatch * World :=
  match circles with
  | [] => (batch, w)
  | circleData :: rest =>
      let '(ref, w1) := newCircleRef w in
      stageCircles fbUser rest (batch_set batch ref (dataWithOwner fbUser circleData) false) w1
  end.

(** Steps 1 and 2: the batch as it is when step 3 starts. *)
Definition stagedBatch (fbUser : FirebaseUser) (additionalData : AdditionalData)
    (w : World) : WriteBatch * World :=
  let batch : WriteBatch := [] in
  let batch := batch_set batch (userDocRef fbUser) (newUser fbUser additionalData) true in
  stageCircles fbUser defaultCircles batch w.

(** Step 3: [if (fbUser.email) await processInvitesForNewUser(...)]. *)
Definition processInvitesStep (fbUser : FirebaseUser) (batch : WriteBatch) (w : World)
    : Settled unit * WriteBatch * World :=
  if truthy_string (fb_email fbUser)
  then processInvitesForNewUser batch (uid fbUser) (default "" (fb_email fbUser)) w
  else (Fulfilled tt, batch, w).

(** The whole function.  A rejected [await] in step 3 leaves the function
    before [batch.commit()] is reached. *)
Definition createNewUserData (fbUser : FirebaseUser) (additionalData : AdditionalData)
    (w : World) : Settled unit * World :=
  let '(batch, w1) := stagedBatch fbUser additionalData w in
  let '(r, batch', w2) := processInvitesStep fbUser batch w1 in
  match r with
  | Rejected reason => (Rejected reason, w2)
  | Fulfilled _ => commit unreachable batch' w2
  end.

End Provisioning.

(** Modelled from the spec: [defaultCircles] is missing from the sources;
    the spec has four fixed circle kinds (Friends, Family, Work, General)
    and four default circles, so there is one object per kind, carrying the
    kind's name. *)
Definition defaultCircles : list Document :=
  (λ n, {["name" := VString n]}) <$> ["Friends"; "Family"; "Work"; "General"].

End Data.

(** ** [src/app/circles/[id]/page.tsx]: the circle detail page *)

Module CirclePage.
Import Firestore.

(** *** [MemberListItem] *)

(** What activating a control does: call [onRemove(member)], call
    [onSuggestGoal(member)], or follow a link. *)
Inductive Action :=
| CallOnRemove (member : User.t)
| CallOnSuggestGoal (member : User.t)
| Navigate (href : string).

(** The controls of the action area of a row, as rendered. *)
Inductive Control :=
| RatedLabel (lastRatedAt : Timestamp)
| RateLink (href : string) (label : string) (variant : string)
| SuggestGoalButton (onClick : Action)
| RemoveButton (onClick : Action).

(** A rendered row: the identity part, always there, and the action area,
    [None] when [{!isCurrentUser && (...)}] renders nothing. *)
Record Row := mkRow {
  avatarSrc : string;
  avatarAlt : string;
  avatarFallback : string;
  nameText : string;
  premiumGem : bool;
  actionArea : option (list Control)
}.

(** [{cond && <element/>}] inside a list of children *)
Definition when {A} (cond : bool) (x : A) : list A := if cond then [x] else [].

(** [circle.name !== "Family"] *)
Definition notFamily (c : Circle.t) : bool :=
  negb (bool_decide (Circle.name c = Family)).

(** [`/evaluate/${circle.id}/${member.id}`] *)
Definition evaluateHref (circle : Circle.t) (member : User.t) : string :=
  "/evaluate/" +:+ Circle.id circle +:+ "/" +:+ User.id member.

(** The component; [currentUser] is what the [useUser] hook returns. *)
Definition MemberListItem (currentUser : option User.t) (member : User.t)
    (circle : Circle.t) (currentUserId : string) (lastRatedAt : option Timestamp) : Row :=
  let isCurrentUser := bool_decide (User.id member = currentUserId) in
  let isCircleOwner := bool_decide (Circle.ownerId circle = currentUserId) in
  let rated := match lastRatedAt with Some _ => true | None => false end in
  mkRow (User.photoUrl member) (User.displayName member)
    (Data.charAt0 (User.displayName member))
    (User.displayName member)
    (truthy_bool (User.isPremium member))
    (if negb isCurrentUser then
       Some (
         match lastRatedAt with
         | Some t => when (notFamily circle) (RatedLabel t)
         | None => []
         end ++
         when (notFamily circle)
           (RateLink (evaluateHref circle member)
              (if rated then "Re-rate" else "Rate")
              (if rated then "outline" else "default")) ++
         when (bool_decide (Circle.name circle = Family) &&
               truthy_bool (currentUser ≫= User.isPremium))
           (SuggestGoalButton (CallOnSuggestGoal member)) ++
         when isCircleOwner (RemoveButton (CallOnRemove member)))
     else None).

(** What the user can trigger from one control, and from a row. *)
Definition controlAction (c : Control) : option Action :=
  match c with
  | RatedLabel _ => None
  | RateLink href _ _ => Some (Navigate href)
  | SuggestGoalButton a => Some a
  | RemoveButton a => Some a
  end.

Definition rowControls (r : Row) : list Control := default [] (actionArea r).

Definition rowActions (r : Row) : list Action :=
  omap controlAction (rowControls r).

Definition isRemoveButton (c : Control) : bool :=
  match c with RemoveButton _ => true | _ => false end.

Definition isRemoval (a : Action) : bool :=
  match a with CallOnRemove _ => true | _ => false end.

(** *** [GoalDialog] *)

(** The dialog's state: [isOpen] is owned by the page and changed through
    [setIsOpen]; the other two are the dialog's [useState] cells. *)
Record Dialog := mkDialog {
  isOpen : bool;
  selectedTrait : string;
  isSubmitting : bool
}.

(** The dialog as the page opens it: [useState("")], [useState(false)]. *)
Definition openedDialog : Dialog := mkDialog true "" false.

Definition setSelectedTrait (t : string) (d : Dialog) : Dialog :=
  mkDialog (isOpen d) t (isSubmitting d).
Definition setIsSubmitting (b : bool) (d : Dialog) : Dialog :=
  mkDialog (isOpen d) (selectedTrait d) b.
Definition setIsOpen (b : bool) (d : Dialog) : Dialog :=
  mkDialog b (selectedTrait d) (isSubmitting d).

(** What one call of [handleSend] leaves behind: the traits [onSend] was
    called with, how the handler settled, the dialog, the world. *)
Record Sent := mkSent {
  onSendCalls : list string;
  settled : Settled unit;
  dialog : Dialog;
  world : World
}.

(** [handleSend]; [onSend] is the page's handler passed as a prop. *)
Definition handleSend (onSend : string → World → Settled unit * World)
    (d : Dialog) (w : World) : Sent :=
  if negb (truthy_string (Some (selectedTrait d))) then mkSent [] (Fulfilled tt) d w
  else
    let d1 := setIsSubmitting true d in
    let '(r, w1) := onSend (selectedTrait d) w in
    match r with
    | Fulfilled _ =>
        let d2 := setIsSubmitting false d1 in
        let d3 := setIsOpen false d2 in
        mkSent [selectedTrait d] (Fulfilled tt) d3 w1
    | Rejected reason => mkSent [selectedTrait d] (Rejected reason) d1 w1
    end.

(** The document of a new goal suggestion. *)
Definition goalDocument (fromUserId toUserId trait : string) (tip : option string)
    : Document :=
  let base : Document :=
    <["fromUserId" := VString fromUserId]>
    (<["toUserId" := VString toUserId]>
    (<["trait" := VString trait]>
    (<["status" := VString "pending"]>
    (<["createdAt" := VServerTimestamp]> ∅)))) in
  match tip with
  | Some t => <["tip" := VString t]> base
  | None => base
  end.

(** Modelled from the spec: [sendFamilyGoal] of the data-access module and
    the page's [onSend] handler are missing from the sources.  The spec has
    the confirmed dialog write one [pending] FamilyGoal with the chosen
    trait as a single-document operation; the tip of the AI helper is
    best-effort ([tip = None] when the helper fails) and never blocks the
    write.  [unreachable] is the reason the write does not reach the
    store, if it does not. *)
Definition sendFamilyGoal (autoId : nat → string) (unreachable : option string)
    (tip : option string) (fromUserId toUserId trait : string) (w : World)
    : Settled unit * World :=
  match unreachable with
  | Some reason => (Rejected reason, w)
  | None =>
      (Fulfilled tt,
       mkWorld (<[("familyGoals", autoId (idsDrawn w)) :=
                    goalDocument fromUserId toUserId trait tip]> (store w))
               (S (idsDrawn w)))
  end.

End CirclePage.

(** * What the specification says, in its own words *)

Module Spec.

(** The number of elements of [l] that satisfy [P]. *)
Fixpoint count_of {A} (P : A → Prop) `{∀ x, Decision (P x)} (l : list A) : nat :=
  match l with
  | [] => 0
  | x :: rest => (if decide (P x) then 1 else 0) + count_of P rest
  end.

(** "circleId is set": the invite is targeted at a real circle, that is, it
    carries a circle id and the id is not the empty string (no document has
    the empty id; JavaScript treats the empty string like a missing one). *)
Definition circleId_set (i : Invite.t) : Prop :=
  ∃ c, Invite.circleId i = Some c ∧ c ≠ "".

#[global] Instance circleId_set_dec i : Decision (circleId_set i).
Proof.
  unfold circleId_set. destruct (Invite.circleId i) as [c|].
  - destruct (decide (c = "")) as [->|Hne].
    + right. intros (c & [= <-] & Hc). done.
    + left. eauto.
  - right. intros (c & [=] & _).
Defined.

(** An invite that counts toward the badge. *)
Definition pending_with_circle (i : Invite.t) : Prop :=
  circleId_set i ∧ Invite.status i = Invite.pending.

(** A family-goal suggestion pending for user [U]. *)
Definition pending_goal_for (U : string) (g : FamilyGoal.t) : Prop :=
  FamilyGoal.toUserId g = U ∧ FamilyGoal.status g = FamilyGoal.pending.

End Spec.

(** * Properties of the notification effect *)

Import Layout Spec.

(** The spec's end-to-end example: a premium user P with 3 pending invites
    (only 2 of which carry a circleId), 2 pending reveal requests and 1
    pending goal; next to them, records that must not count for P. *)
Definition epoch : Timestamp := {| seconds := 0; nanoseconds := 0 |}.

Definition userP : User.t :=
  User.mk "P" "Pat" None None "p@x.com" "" (Some true) None None None None None.

(** A user on the free tier, with [isPremium] never written. *)
Definition userF : User.t :=
  User.mk "F" "Fay" None None "f@x.com" "" None None None None None None.

Definition exampleDb : Backend := {|
  db_invites := [
    Invite.mk "i1" "A" None (Some "P") (Some "c1") (Some Friends) Invite.pending epoch;
    Invite.mk "i2" "B" None (Some "P") (Some "c2") (Some Work) Invite.pending epoch;
    Invite.mk "i3" "C" None (Some "P") None None Invite.pending epoch;
    Invite.mk "i4" "A" None (Some "P") (Some "c1") (Some Friends) Invite.accepted epoch;
    Invite.mk "i5" "A" None (Some "F") (Some "c1") (Some Friends) Invite.pending epoch ];
  db_familyGoals := [
    FamilyGoal.mk "g1" "A" "P" "Patience" FamilyGoal.pending epoch None;
    FamilyGoal.mk "g2" "B" "P" "Being Present" FamilyGoal.active epoch None;
    FamilyGoal.mk "g3" "A" "F" "Patience" FamilyGoal.pending epoch None ];
  db_revealRequestsFor U :=
    if bool_decide (U = "F") then []
    else [ RevealRequest.mk "r1" U "A" "a1" RevealRequest.pending epoch;
           RevealRequest.mk "r2" U "B" "a2" RevealRequest.pending epoch ];
  db_failure _ := None
|}.

(** The same store in a cycle where the goals read fails. *)
Definition exampleDbGoalsDown : Backend := {|
  db_invites := db_invites exampleDb;
  db_familyGoals := db_familyGoals exampleDb;
  db_revealRequestsFor := db_revealRequestsFor exampleDb;
  db_failure rq := match rq with ReqFamilyGoals _ => Some "unavailable" | _ => None end
|}.

(** Does one of the reads that the cycle issues for [user] fail? *)
Definition anyFetchFails `{DataAccess} (user : User.t) : bool :=
  isRejected (getReceivedInvitesForUser (User.id user)) ||
  (truthy_bool (User.isPremium user) &&
     isRejected (getRevealRequestsForUser (User.id user))) ||
  isRejected (getFamilyGoalsForUser (User.id user)).

(** The data-access layer [da] with another reveal-request read. *)
Definition withRevealRequests (da : DataAccess)
    (reveal : string → Settled (list RevealRequest.t)) : DataAccess := {|
  getReceivedInvitesForUser := @getReceivedInvitesForUser da;
  getRevealRequestsForUser := reveal;
  getFamilyGoalsForUser := @getFamilyGoalsForUser da
|}.

(** A cycle run for a signed-in user who is not premium, or for nobody. *)
Definition nonPremiumCycle (c : DataAccess * option User.t) : Prop :=
  ∀ u, c.2 = Some u → truthy_bool (User.isPremium u) = false.

(** * Provisioning: what is stated about it *)

Import Firestore Data.

(** The document a staged write is aimed at. *)
Definition opRef (op : WriteOp) : DocRef :=
  match op with
  | OpSet ref _ _ => ref
  | OpUpdate ref _ => ref
  | OpDelete ref => ref
  end.

(** One write per default circle, for the ids drawn from the [n]-th on: a
    plain [set] of the circle's data with the new user as owner and as only
    member. *)
Definition circleOps (autoId : nat → string) (fbUser : FirebaseUser) (n : nat)
    (circles : list Document) : WriteBatch :=
  imap (λ i circleData,
          OpSet ("circles", autoId (n + i)) (dataWithOwner fbUser circleData) false)
       circles.

(** The field [f] of the document at [ref], if both exist. *)
Definition fieldOf (s : Store) (ref : DocRef) (f : string) : option Value :=
  s !! ref ≫= (λ d : Document, d !! f).

(** An invite-processing step that keeps to the invites: what it stages is
    added behind the writes already in the batch and is aimed at no user
    document, and what it writes on its own changes no user document. *)
Definition keepsToInvites
    (processInvites : WriteBatch → string → string → World → Settled unit * WriteBatch * World)
    : Prop :=
  ∀ batch uid email w,
    (∃ extra, (processInvites batch uid email w).1.2 = batch ++ extra
              ∧ Forall (λ op, (opRef op).1 ≠ "users") extra)
    ∧ ∀ u, store (processInvites batch uid email w).2 !! ("users", u) = store w !! ("users", u).

(** [invite.toEmail == email && invite.status == 'pending'] on a document *)
Definition pendingInviteFor (email : string) (d : Document) : bool :=
  match d !! "toEmail", d !! "status" with
  | Some (VString e), Some (VString st) => String.eqb e email && String.eqb st "pending"
  | _, _ => false
  end.

(** Modelled from the spec: [processInvitesForNewUser] is missing from the
    sources.  The spec has it process, best-effort and outside the atomic
    batch, the invites previously addressed to the new user's email,
    "rewriting them to reference the new user id", as a separate network
    call: every pending invite with [toEmail == email] gets
    [toUserId = uid], written to the store directly; the batch is left as
    it is.  [down] is the reason the call fails, if it does. *)
Definition processInvitesDirect (down : option string)
    (batch : WriteBatch) (uid email : string) (w : World)
    : Settled unit * WriteBatch * World :=
  match down with
  | Some reason => (Rejected reason, batch, w)
  | None =>
      (Fulfilled tt, batch,
       mkWorld (map_imap (λ (ref : DocRef) (d : Document),
                   if String.eqb ref.1 "invites" && pendingInviteFor email d
                   then Some (<["toUserId" := VString uid]> d)
                   else Some d) (store w))
               (idsDrawn w))
  end.

(** The spec's provisioning scenario: a fresh identity with email a@x.com,
    one pending invite addressed to that email, four default circles. *)
Definition fbA : FirebaseUser := mkFirebaseUser "u1" None (Some "a@x.com") None.

Definition adA : AdditionalData := mkAdditionalData (Some "Ann") (Some "Lee").

Definition inviteA : Document :=
  <["fromUserId" := VString "u0"]>
  (<["toEmail" := VString "a@x.com"]>
  (<["circleId" := VString "c0"]>
  (<["status" := VString "pending"]> ∅))).

Definition idOf (n : nat) : string := "auto" +:+ pretty n.

Definition worldA : World := mkWorld {[ ("invites", "inv1") := inviteA ]} 0.

(** The same identity when the Stripe function ran first and left the
    customer id on the user document. *)
Definition worldStripe : World :=
  mkWorld (<[("users", "u1") := {["stripeId" := VString "cus_1"]}]> (store worldA)) 0.

(** C7 as the spec states it: when the invite-processing step fails, the
    atomic batch of user and circle writes still stands, that is, the
    writes staged in steps 1 and 2 are in effect on the store the step
    left behind. *)
Definition batch_survives_invite_failure : Prop :=
  ∀ (circles : list Document) (autoId : nat → string)
    (processInvites : WriteBatch → string → string → World → Settled unit * WriteBatch * World)
    (fbUser : FirebaseUser) (additionalData : AdditionalData) (w : World),
    let staged := stagedBatch circles autoId fbUser additionalData w in
    let step := processInvitesStep processInvites fbUser staged.1 staged.2 in
    isRejected step.1.1 = true →
    apply_ops (store step.2) staged.1
    = Some (store (createNewUserData circles autoId processInvites None
                     fbUser additionalData w).2).

(** * The circle detail page: scenario values *)

Import CirclePage.

Definition ann : User.t :=
  User.mk "u1" "Ann Lee" None None "a@x.com" "" (Some true) None None None None None.

Definition bob : User.t :=
  User.mk "u2" "Bob Ray" None None "b@x.com" "" None None None None None None.

(** Ann's family circle, with Bob in it. *)
Definition annsFamily : Circle.t := Circle.mk "c1" "u1" Family ["u1"; "u2"].

(** Sending again and again without choosing a trait. *)
Fixpoint sendRepeatedly (onSend : string → World → Settled unit * World)
    (n : nat) (d : Dialog) (w : World) : Sent :=
  match n with
  | 0 => mkSent [] (Fulfilled tt) d w
  | S n' =>
      let s := handleSend onSend d w in
      let rest := sendRepeatedly onSend n' (dialog s) (world s) in
      mkSent (onSendCalls s ++ onSendCalls rest) (settled rest) (dialog rest) (world rest)
  end.

(** * The rest of the layout component *)

Module Shell.
Import Layout.

(** [const isActive = (path: string) => pathname.startsWith(path)] *)
Definition isActive (pathname path : string) : bool := String.prefix path pathname.

(** The menu entries of the sidebar, down to the tier-gated one. *)
Inductive MenuItem :=
| Dashboard | Search | Requests | FamilyGoals | EcoRating | AttractionRatings.

#[global] Instance MenuItem_eq_dec : EqDecision MenuItem.
Proof. solve_decision. Defined.

(** The [href] of each entry's link. *)
Definition href (m : MenuItem) : string :=
  match m with
  | Dashboard => "/dashboard"
  | Search => "/search"
  | Requests => "/invites"
  | FamilyGoals => "/goals"
  | EcoRating => "/eco-rating"
  | AttractionRatings => "/attraction-ratings"
  end.

(** The [isActive] prop of each entry's button: the dashboard compares
    with [===], the others call [isActive]. *)
Definition menuActive (pathname : string) (m : MenuItem) : bool :=
  match m with
  | Dashboard => String.eqb pathname "/dashboard"
  | _ => isActive pathname (href m)
  end.

(** The first effect: [if (!loading && !user) router.push('/login')];
    the result is the list of pushed routes. *)
Definition sessionGuardEffect (loading : bool) (user : option User.t) : list string :=
  if negb loading && negb (bool_decide (is_Some user)) then ["/login"] else [].

(** What the component returns: the spinner for [loading || !user], the
    sidebar and page for the user otherwise. *)
Inductive Screen :=
| Spinner
| Content (user : User.t).

Definition screen (loading : bool) (user : option User.t) : Screen :=
  match user with
  | Some u => if loading then Spinner else Content u
  | None => Spinner
  end.

(** [{count > 0 && (<SidebarMenuBadge>{count}</SidebarMenuBadge>)}]: the
    number shown, if the badge is rendered. *)
Definition menuBadge (count : nat) : option nat :=
  if (0 <? count)%nat then Some count else None.

(** The badge of the Requests entry and of the Family Goals entry. *)
Definition requestsBadge (st : Badges) : option nat := menuBadge (inviteCount st).
Definition goalsBadge (st : Badges) : option nat := menuBadge (goalSuggestionCount st).

(** The badge inside the Attraction entry; the entry is in the branch
    rendered for [user.isPremium]. *)
Definition attractionBadge (st : Badges) : option nat := menuBadge (revealRequestCount st).

End Shell.

(** * Further notions used in the statements *)

Import Shell.

(** The string contains a space. *)
Fixpoint has_space (s : string) : bool :=
  match s with
  | String c rest => Ascii.eqb c " "%char || has_space rest
  | EmptyString => false
  end.

(** An invite-processing step that only deals with invites: what it stages
    is added behind the writes already in the batch and is aimed at invite
    documents, what it writes on its own changes invite documents only,
    and it gives back no auto-id. *)
Definition onlyInvites
    (processInvites : WriteBatch → string → string → World → Settled unit * WriteBatch * World)
    : Prop :=
  ∀ batch uid email w,
    (∃ extra, (processInvites batch uid email w).1.2 = batch ++ extra
              ∧ Forall (λ op, (opRef op).1 = "invites") extra)
    ∧ (∀ ref : DocRef, ref.1 ≠ "invites" →
         store (processInvites batch uid email w).2 !! ref = store w !! ref)
    ∧ idsDrawn w ≤ idsDrawn (processInvites batch uid email w).2.

(** Send, let the page open the dialog again, send again. *)
Definition sendTwice (onSend : string → World → Settled unit * World)
    (d : Dialog) (w : World) : Sent :=
  let s1 := handleSend onSend d w in
  let s2 := handleSend onSend (setIsOpen true (dialog s1)) (world s1) in
  mkSent (onSendCalls s1 ++ onSendCalls s2) (settled s2) (dialog s2) (world s2).

(** A handler that always fails, and one that always succeeds and
    changes nothing. *)
Definition onSendDown : string → World → Settled unit * World :=
  λ _ w, (Rejected "unavailable", w).

Definition onSendOk : string → World → Settled unit * World :=
  λ _ w, (Fulfilled tt, w).

(** Ann's circle of friends, with Bob in it. *)
Definition annsFriends : Circle.t := Circle.mk "c2" "u1" Friends ["u1"; "u2"].

(** An identity that comes with a display name and nothing else. *)
Definition fbGoogle : FirebaseUser :=
  mkFirebaseUser "u9" (Some "Mary Ann Smith") None None.

(** An identity with no display name and no email. *)
Definition fbBare : FirebaseUser := mkFirebaseUser "u8" None None None.

(** A store where the new identity already has a premium user document
    and somebody else has a circle. *)
Definition worldPremium : World :=
  mkWorld (<[("users", "u1") := {[ "isPremium" := VBool true; "revealTokens" := VNumber 5 ]}]>
          (<[("circles", "old") := {[ "ownerId" := VString "u0" ]}]>
          (store worldA))) 0.



Lemma truthy_string_spec (x : option string) :
  truthy_string x = true ↔ ∃ s, x = Some s ∧ s ≠ "".
Proof.
  destruct x as [s|]; simpl.
  - rewrite negb_true_iff, String.eqb_neq. split.
    + intros Hne. by exists s.
    + by intros (s' & [= <-] & Hne).
  - split; [done|]. by intros (s & ? & _).
Qed.

Lemma actionable_spec (i : Invite.t) :
  actionable i = true ↔ pending_with_circle i.
Proof.
  unfold actionable, pending_with_circle, circleId_set.
  rewrite andb_true_iff, truthy_string_spec.
  assert (Invite.is_pending (Invite.status i) = true ↔
          Invite.status i = Invite.pending) as ->; [|done].
  by destruct (Invite.status i).
Qed.

Lemma length_actionableInvites (l : list Invite.t) :
  length (actionableInvites l) = count_of pending_with_circle l.
Proof.
  induction l as [|i l IH]; [done|].
  unfold actionableInvites in *. simpl.
  destruct (actionable i) eqn:Hact.
  - apply actionable_spec in Hact. rewrite decide_True by done. simpl. by rewrite IH.
  - rewrite decide_False; [done|]. rewrite <-actionable_spec. congruence.
Qed.

(** A fulfilled run had all its reads fulfilled, and its badges are the
    three counts computed from them. *)
Lemma fetchNotifications_fulfilled `{DataAccess} (user : User.t) (st : Badges) :
  result (fetchNotifications user st) = Fulfilled tt →
  ∃ invs reveals goals,
    getReceivedInvitesForUser (User.id user) = Fulfilled invs ∧
    (if truthy_bool (User.isPremium user)
     then getRevealRequestsForUser (User.id user) = Fulfilled reveals
     else reveals = []) ∧
    getFamilyGoalsForUser (User.id user) = Fulfilled goals ∧
    badges (fetchNotifications user st) =
      mkBadges (length (actionableInvites invs)) (length reveals) (length goals).
Proof.
  unfold fetchNotifications, fetches, Promise_all3, Promise_resolve. simpl.
  destruct (getReceivedInvitesForUser (User.id user)) as [invs|r1];
    destruct (truthy_bool (User.isPremium user)); simpl;
    try destruct (getRevealRequestsForUser (User.id user)) as [reveals|r2]; simpl;
    destruct (getFamilyGoalsForUser (User.id user)) as [goals|r3]; simpl;
    try discriminate; intros _; eauto 10.
Qed.

(** C1.  After a cycle that completes, the invite badge count is the number
    of received invites whose circleId is set (present and naming a circle)
    and whose status is pending; every invite that is counted carries a
    circleId, so an invite without one never counts. *)
Theorem C1_invite_badge_counts_pending_with_circle
    (da : DataAccess) (user : User.t) (st : Badges) (received : list Invite.t) :
  getReceivedInvitesForUser (User.id user) = Fulfilled received →
  result (fetchNotifications user st) = Fulfilled tt →
  inviteCount (badges (fetchNotifications user st))
    = count_of pending_with_circle received
  ∧ (∀ i, i ∈ actionableInvites received →
       i ∈ received ∧ is_Some (Invite.circleId i) ∧ Invite.status i = Invite.pending)
  ∧ (∀ i, Invite.circleId i = None →
       count_of pending_with_circle (i :: received)
         = count_of pending_with_circle received).
Proof.
  intros Hrecv Hok.
  destruct (fetchNotifications_fulfilled user st Hok)
    as (invs & reveals & goals & Hinv & _ & _ & ->).
  rewrite Hrecv in Hinv. injection Hinv as <-. simpl.
  split; [apply length_actionableInvites|]. split.
  - intros i Hi. unfold actionableInvites in Hi.
    apply list_elem_of_In, filter_In in Hi as [Hin Hact].
    apply actionable_spec in Hact as [(c & Hc & _) Hst].
    split; [by apply list_elem_of_In|]. split; [by rewrite Hc|done].
  - intros i Hi. simpl. rewrite decide_False; [done|].
    intros [(c & Hc & _) _]. congruence.
Qed.

Lemma C1_witness :
  getReceivedInvitesForUser (DataAccess := storeAccess exampleDb) (User.id userP)
    = Fulfilled (receivedInvitesOf exampleDb "P")
  ∧ inviteCount (badges (fetchNotifications (H := storeAccess exampleDb) userP initialBadges)) = 2.
Proof.
  split; [reflexivity|].
  destruct (C1_invite_badge_counts_pending_with_circle (storeAccess exampleDb) userP
              initialBadges (receivedInvitesOf exampleDb "P") eq_refl eq_refl)
    as [-> _].
  reflexivity.
Defined.

(** A cycle for a user who is not premium does not look at the
    reveal-request read. *)
Lemma fetchNotifications_ignores_reveal (da : DataAccess) (user : User.t) (st : Badges)
    (reveal : string → Settled (list RevealRequest.t)) :
  truthy_bool (User.isPremium user) = false →
  fetchNotifications (H := withRevealRequests da reveal) user st
    = fetchNotifications (H := da) user st.
Proof.
  intros Hfree. unfold fetchNotifications, fetches. by rewrite Hfree.
Qed.

Lemma nonPremium_keeps_reveal_zero (da : DataAccess) (user : option User.t) (st : Badges) :
  nonPremiumCycle (da, user) →
  revealRequestCount st = 0 →
  revealRequestCount (badges (notificationEffect (H := da) user st)) = 0.
Proof.
  intros Hfree Hzero. destruct user as [u|]; [|done]. simpl.
  specialize (Hfree u eq_refl).
  destruct (result (fetchNotifications u st)) as [[]|r] eqn:Hres.
  - destruct (fetchNotifications_fulfilled u st Hres)
      as (invs & reveals & goals & _ & Hrev & _ & ->).
    rewrite Hfree in Hrev. by subst.
  - unfold fetchNotifications in *.
    destruct (outcome (fetches u)) as [[[? ?] ?]|?]; [discriminate|done].
Qed.

(** C2.  For a user who is not premium, the cycle issues no reveal-request
    read, a completed cycle sets the reveal-request count to 0, the run is
    the same whatever the reveal-request read would have answered, and the
    count stays 0 over any number of such cycles from the initial state. *)
Theorem C2_non_premium_reveal_count_zero
    (da : DataAccess) (user : User.t) (st : Badges) :
  truthy_bool (User.isPremium user) = false →
  (∀ U, ReqRevealRequests U ∉ requests (fetchNotifications user st))
  ∧ (result (fetchNotifications user st) = Fulfilled tt →
       revealRequestCount (badges (fetchNotifications user st)) = 0)
  ∧ (∀ reveal, fetchNotifications (H := withRevealRequests da reveal) user st
                 = fetchNotifications user st)
  ∧ (∀ cycles, Forall nonPremiumCycle cycles →
       revealRequestCount (runCycles cycles initialBadges) = 0).
Proof.
  intros Hfree. repeat split.
  - intros U. unfold fetchNotifications, fetches, Promise_all3, Promise_resolve.
    rewrite Hfree. simpl.
    destruct (getReceivedInvitesForUser (User.id user));
      destruct (getFamilyGoalsForUser (User.id user)); simpl;
      by intros [?|[?|?%elem_of_nil]%elem_of_cons]%elem_of_cons.
  - intros Hok.
    destruct (fetchNotifications_fulfilled user st Hok)
      as (invs & reveals & goals & _ & Hrev & _ & ->).
    rewrite Hfree in Hrev. by subst.
  - intros reveal. by apply fetchNotifications_ignores_reveal.
  - intros cycles. generalize initialBadges (eq_refl : revealRequestCount initialBadges = 0).
    induction cycles as [|[da' u] cycles IH]; intros st0 Hzero Hall; [done|].
    apply Forall_cons in Hall as [Hc Hall]. simpl.
    apply IH; [|done]. by apply nonPremium_keeps_reveal_zero.
Qed.

Lemma C2_witness :
  truthy_bool (User.isPremium userF) = false
  ∧ revealRequestCount
      (badges (fetchNotifications (H := storeAccess exampleDb) userF (mkBadges 5 7 9))) = 0.
Proof.
  split; [reflexivity|].
  exact (proj1 (proj2 (C2_non_premium_reveal_count_zero (storeAccess exampleDb) userF
                         (mkBadges 5 7 9) eq_refl)) eq_refl).
Defined.

(** C3.  After a cycle that completes, the goal badge count is the number
    of goals the goals read returned, which is the number of pending
    family-goal suggestions directed at the user in the store. *)
Theorem C3_goal_badge_counts_pending_suggestions
    (db : Backend) (user : User.t) (st : Badges) :
  result (fetchNotifications (H := storeAccess db) user st) = Fulfilled tt →
  getFamilyGoalsForUser (DataAccess := storeAccess db) (User.id user)
    = Fulfilled (familyGoalSuggestionsOf db (User.id user))
  ∧ goalSuggestionCount (badges (fetchNotifications (H := storeAccess db) user st))
    = length (familyGoalSuggestionsOf db (User.id user))
  ∧ goalSuggestionCount (badges (fetchNotifications (H := storeAccess db) user st))
    = count_of (pending_goal_for (User.id user)) (db_familyGoals db).
Proof.
  intros Hok.
  destruct (fetchNotifications_fulfilled (H := storeAccess db) user st Hok)
    as (invs & reveals & goals & _ & _ & Hgoals & ->). simpl in *.
  unfold settle in *.
  destruct (db_failure db (ReqFamilyGoals (User.id user))); [discriminate|].
  injection Hgoals as <-. repeat split.
  unfold familyGoalSuggestionsOf.
  induction (db_familyGoals db) as [|g l IH]; [done|]. simpl.
  unfold goal_suggested_to at 1, pending_goal_for at 1.
  destruct (decide (_ ∧ _)) as [[H1 H2]|Hn].
  - rewrite !bool_decide_eq_true_2 by done. simpl. by rewrite IH.
  - destruct (bool_decide _ && bool_decide _) eqn:Hb; [|done].
    apply andb_true_iff in Hb as [?%bool_decide_eq_true ?%bool_decide_eq_true].
    by destruct Hn.
Qed.

(** The spec's example: invite = 2, reveal = 2, goal = 1. *)
Lemma C3_witness :
  fetchNotifications (H := storeAccess exampleDb) userP initialBadges
    = mkRun [ReqReceivedInvites "P"; ReqRevealRequests "P"; ReqFamilyGoals "P"]
            (Fulfilled tt) (mkBadges 2 2 1)
  ∧ count_of (pending_goal_for "P") (db_familyGoals exampleDb) = 1.
Proof.
  split; [reflexivity|].
  destruct (C3_goal_badge_counts_pending_suggestions exampleDb userP initialBadges eq_refl)
    as (_ & _ & Hcount).
  exact (eq_trans (eq_sym Hcount) eq_refl).
Defined.

(** C4.  A cycle in which one of the issued reads fails is rejected and
    leaves the three counts as they were; otherwise it completes and all
    three counts come from the reads of this cycle. *)
Theorem C4_cycle_all_or_nothing (da : DataAccess) (user : User.t) (st : Badges) :
  if anyFetchFails user
  then isRejected (result (fetchNotifications user st)) = true
       ∧ badges (fetchNotifications user st) = st
  else result (fetchNotifications user st) = Fulfilled tt
       ∧ ∃ invs reveals goals,
           getReceivedInvitesForUser (User.id user) = Fulfilled invs
           ∧ (if truthy_bool (User.isPremium user)
              then getRevealRequestsForUser (User.id user) = Fulfilled reveals
              else reveals = [])
           ∧ getFamilyGoalsForUser (User.id user) = Fulfilled goals
           ∧ badges (fetchNotifications user st)
             = mkBadges (length (actionableInvites invs)) (length reveals) (length goals).
Proof.
  unfold anyFetchFails, fetchNotifications, fetches, Promise_all3, Promise_resolve.
  destruct (getReceivedInvitesForUser (User.id user)) as [invs|r1];
    destruct (truthy_bool (User.isPremium user)); simpl;
    try destruct (getRevealRequestsForUser (User.id user)) as [reveals|r2]; simpl;
    destruct (getFamilyGoalsForUser (User.id user)) as [goals|r3]; simpl;
    try done; split; try done; eauto 10.
Qed.

(** A failing goals read keeps all three earlier counts; without it, all
    three are replaced. *)
Example cycle_aborts_when_goals_read_fails :
  fetchNotifications (H := storeAccess exampleDbGoalsDown) userP (mkBadges 5 7 9)
    = mkRun [ReqReceivedInvites "P"; ReqRevealRequests "P"; ReqFamilyGoals "P"]
            (Rejected "unavailable") (mkBadges 5 7 9)
  ∧ badges (fetchNotifications (H := storeAccess exampleDb) userP (mkBadges 5 7 9))
    = mkBadges 2 2 1.
Proof. split; reflexivity. Qed.

(** * Properties of user provisioning *)

Lemma stageCircles_eq autoId fbUser circles batch w :
  stageCircles autoId fbUser circles batch w
  = (batch ++ circleOps autoId fbUser (idsDrawn w) circles,
     mkWorld (store w) (idsDrawn w + length circles)).
Proof.
  revert batch w. induction circles as [|cd circles IH]; intros batch w.
  - simpl. rewrite app_nil_r, Nat.add_0_r. by destruct w.
  - simpl. rewrite IH. unfold batch_set, circleOps. simpl.
    rewrite <-app_assoc. simpl. rewrite Nat.add_0_r. do 3 f_equal.
    + apply imap_ext. intros i x _. simpl. do 3 f_equal. lia.
    + f_equal. lia.
Qed.

Lemma stagedBatch_eq circles autoId fbUser ad w :
  stagedBatch circles autoId fbUser ad w
  = (OpSet (userDocRef fbUser) (newUser fbUser ad) true
       :: circleOps autoId fbUser (idsDrawn w) circles,
     mkWorld (store w) (idsDrawn w + length circles)).
Proof. unfold stagedBatch. by rewrite stageCircles_eq. Qed.

Lemma newUser_no_stripeId fbUser ad : newUser fbUser ad !! "stripeId" = None.
Proof. unfold newUser. by rewrite !lookup_insert_ne, lookup_empty. Qed.

Lemma newUser_isPremium fbUser ad : newUser fbUser ad !! "isPremium" = Some (VBool false).
Proof.
  unfold newUser. repeat (rewrite lookup_insert_ne by done). apply lookup_insert_eq.
Qed.

Lemma merge_doc_absent (old data : gmap string Value) (f : string) :
  data !! f = None → merge_doc old data !! f = old !! f.
Proof.
  intros Hf. unfold merge_doc. rewrite lookup_union_with, Hf.
  by destruct (old !! f).
Qed.

Lemma merge_doc_present (old data : gmap string Value) (f : string) (x : Value) :
  data !! f = Some x →
  merge_doc old data !! f
  = Some (match old !! f with Some o => merge_value o x | None => x end).
Proof.
  intros Hf. unfold merge_doc. rewrite lookup_union_with, Hf.
  by destruct (old !! f).
Qed.

(** A staged write changes no document but the one it is aimed at. *)
Lemma apply_op_frame (s s' : Store) (op : WriteOp) (ref : DocRef) :
  opRef op ≠ ref → apply_op s op = Some s' → s' !! ref = s !! ref.
Proof.
  destruct op as [r d [|]|r d|r]; simpl; intros Hne Hap.
  - injection Hap as <-. by rewrite lookup_insert_ne.
  - injection Hap as <-. by rewrite lookup_insert_ne.
  - destruct (s !! r); [|done]. injection Hap as <-. by rewrite lookup_insert_ne.
  - injection Hap as <-. by rewrite lookup_delete_ne.
Qed.

Lemma apply_ops_frame (ops : WriteBatch) (s s' : Store) (ref : DocRef) :
  Forall (λ op, opRef op ≠ ref) ops →
  apply_ops s ops = Some s' → s' !! ref = s !! ref.
Proof.
  revert s. induction ops as [|op ops IH]; intros s Hall Hap; simpl in *.
  - by injection Hap as <-.
  - apply Forall_cons in Hall as [Hop Hall].
    destruct (apply_op s op) as [s1|] eqn:H1; [|done].
    rewrite (IH s1 Hall Hap). by apply (apply_op_frame s s1 op).
Qed.

Lemma circleOps_refs autoId fbUser n circles :
  Forall (λ op, (opRef op).1 = "circles") (circleOps autoId fbUser n circles).
Proof.
  apply Forall_forall. intros op Hop. unfold circleOps in Hop.
  apply list_elem_of_lookup in Hop as [i Hi].
  rewrite list_lookup_imap in Hi.
  destruct (circles !! i); [|done]. by injection Hi as <-.
Qed.

Lemma refs_outside_users (ops : WriteBatch) (u : string) :
  Forall (λ op, (opRef op).1 ≠ "users") ops →
  Forall (λ op, opRef op ≠ ("users", u)) ops.
Proof.
  intros Hall. eapply Forall_impl; [exact Hall|].
  intros op Hne Heq. simpl in Hne. apply Hne. by rewrite Heq.
Qed.

(** C5.  The user document is staged as a [set] with [merge: true] of a
    payload without [stripeId]; a field that the document already has and
    the payload lacks keeps its value through provisioning, whatever the
    outcome, and a provisioning that completes has written the payload. *)
Theorem C5_user_document_merged_not_overwritten
    (circles : list Document) (autoId : nat → string)
    (processInvites : WriteBatch → string → string → World → Settled unit * WriteBatch * World)
    (unreachable : option string) (fbUser : FirebaseUser) (ad : AdditionalData)
    (w : World) (f : string) (v : Value) :
  keepsToInvites processInvites →
  fieldOf (store w) (userDocRef fbUser) f = Some v →
  newUser fbUser ad !! f = None →
  head (stagedBatch circles autoId fbUser ad w).1
    = Some (OpSet (userDocRef fbUser) (newUser fbUser ad) true)
  ∧ newUser fbUser ad !! "stripeId" = None
  ∧ fieldOf (store (createNewUserData circles autoId processInvites unreachable
                      fbUser ad w).2) (userDocRef fbUser) f = Some v
  ∧ ((createNewUserData circles autoId processInvites unreachable fbUser ad w).1
       = Fulfilled tt →
     fieldOf (store (createNewUserData circles autoId processInvites unreachable
                       fbUser ad w).2) (userDocRef fbUser) "isPremium"
       = Some (VBool false)).
Proof.
  intros Hkeeps Hfield Habsent.
  split; [by rewrite stagedBatch_eq|]. split; [apply newUser_no_stripeId|].
  unfold createNewUserData. rewrite stagedBatch_eq.
  set (w1 := mkWorld (store w) _).
  set (batch := OpSet _ _ _ :: _).
  assert (∃ r batch' w2 extra,
            processInvitesStep processInvites fbUser batch w1 = (r, batch', w2)
            ∧ batch' = batch ++ extra
            ∧ Forall (λ op, opRef op ≠ userDocRef fbUser) extra
            ∧ store w2 !! userDocRef fbUser = store w !! userDocRef fbUser)
    as (r & batch' & w2 & extra & -> & -> & Hextra & Hsame).
  { unfold processInvitesStep. destruct (truthy_string (fb_email fbUser)).
    - destruct (Hkeeps batch (uid fbUser) (default "" (fb_email fbUser)) w1)
        as [(extra & Hb & Hrefs) Hst].
      destruct (processInvites _ _ _ _) as [[r batch'] w2]. simpl in *.
      exists r, batch', w2, extra. repeat split; try done.
      + by apply refs_outside_users.
      + apply Hst.
    - exists (Fulfilled tt), batch, w1, []. rewrite app_nil_r. by repeat split. }
  assert (fieldOf (store w2) (userDocRef fbUser) f = Some v) as Hfield2.
  { unfold fieldOf. by rewrite Hsame. }
  destruct r as [[]|reason]; [|by split].
  unfold commit. destruct unreachable as [reason|]; [by split|].
  destruct (apply_ops (store w2) (batch ++ extra)) as [s'|] eqn:Hap; [|by split].
  simpl in Hap |- *.
  assert (s' !! userDocRef fbUser
          = Some (merge_doc (default ∅ (store w2 !! userDocRef fbUser))
                            (newUser fbUser ad))) as Hdoc.
  { assert (Forall (λ op, opRef op ≠ userDocRef fbUser)
              (circleOps autoId fbUser (idsDrawn w) circles ++ extra)) as Hrefs.
    { apply Forall_app. split; [|done].
      eapply Forall_impl; [apply circleOps_refs|].
      intros op Hc Heq. simpl in Hc. rewrite Heq in Hc. discriminate. }
    rewrite (apply_ops_frame _ _ _ _ Hrefs Hap). apply lookup_insert_eq. }
  unfold fieldOf in *. rewrite Hdoc. simpl. split.
  - rewrite merge_doc_absent by done.
    destruct (store w2 !! userDocRef fbUser); [done|discriminate].
  - intros _. rewrite (merge_doc_present _ _ _ _ (newUser_isPremium fbUser ad)).
    by destruct (_ !! "isPremium").
Qed.

Lemma keepsToInvites_direct (down : option string) :
  keepsToInvites (processInvitesDirect down).
Proof.
  intros batch uid email w. unfold processInvitesDirect.
  destruct down as [reason|]; simpl.
  - split; [|done]. exists []. by rewrite app_nil_r.
  - split; [exists []; by rewrite app_nil_r|].
    intros u. rewrite map_lookup_imap. simpl.
    by destruct (store w !! ("users", u)).
Qed.

Lemma C5_witness :
  fieldOf (store worldStripe) (userDocRef fbA) "stripeId" = Some (VString "cus_1")
  ∧ fieldOf (store (createNewUserData defaultCircles idOf (processInvitesDirect None) None
                      fbA adA worldStripe).2) (userDocRef fbA) "stripeId"
    = Some (VString "cus_1").
Proof.
  split; [reflexivity|].
  exact (proj1 (proj2 (proj2
    (C5_user_document_merged_not_overwritten defaultCircles idOf
       (processInvitesDirect None) None fbA adA worldStripe "stripeId" (VString "cus_1")
       (keepsToInvites_direct None) eq_refl (newUser_no_stripeId fbA adA))))).
Defined.

Lemma circleOps_cons autoId fbUser n circleData rest :
  circleOps autoId fbUser n (circleData :: rest)
  = OpSet ("circles", autoId n) (dataWithOwner fbUser circleData) false
      :: circleOps autoId fbUser (S n) rest.
Proof.
  unfold circleOps. simpl. rewrite Nat.add_0_r. f_equal.
  apply imap_ext. intros i x _. simpl. do 3 f_equal. lia.
Qed.

Lemma circleOps_lookup autoId fbUser n circles i :
  circleOps autoId fbUser n circles !! i
  = (λ circleData, OpSet ("circles", autoId (n + i)) (dataWithOwner fbUser circleData) false)
      <$> circles !! i.
Proof. unfold circleOps. by rewrite list_lookup_imap. Qed.

Lemma dataWithOwner_ownerId fbUser circleData :
  dataWithOwner fbUser circleData !! "ownerId" = Some (VString (uid fbUser)).
Proof.
  unfold dataWithOwner. rewrite lookup_insert_ne by done. apply lookup_insert_eq.
Qed.

Lemma dataWithOwner_memberIds fbUser circleData :
  dataWithOwner fbUser circleData !! "memberIds" = Some (VArray [VString (uid fbUser)]).
Proof. unfold dataWithOwner. apply lookup_insert_eq. Qed.

Lemma dataWithOwner_other fbUser circleData k :
  k ≠ "ownerId" → k ≠ "memberIds" →
  dataWithOwner fbUser circleData !! k = circleData !! k.
Proof.
  intros H1 H2. unfold dataWithOwner. by rewrite !lookup_insert_ne.
Qed.

(** Applying the circle writes: all of them apply; documents they are not
    aimed at stay; with distinct ids, every default circle has its
    document afterwards. *)
Lemma apply_circleOps autoId fbUser circles :
  ∀ n (s : Store),
  ∃ s', apply_ops s (circleOps autoId fbUser n circles) = Some s'
        ∧ (∀ ref, ref.1 ≠ "circles" → s' !! ref = s !! ref)
        ∧ (NoDup (autoId <$> seq n (length circles)) →
           ∀ i circleData, circles !! i = Some circleData →
             s' !! ("circles", autoId (n + i)) = Some (dataWithOwner fbUser circleData)).
Proof.
  induction circles as [|cd rest IH]; intros n s.
  - exists s. by repeat split.
  - rewrite circleOps_cons. simpl.
    destruct (IH (S n) (<[("circles", autoId n) := dataWithOwner fbUser cd]> s))
      as (s' & Hap & Hframe & Hdocs).
    exists s'. split; [done|]. split.
    + intros ref Href. rewrite Hframe by done.
      apply lookup_insert_ne. intros <-. by apply Href.
    + intros Hnodup i circleData Hi. apply NoDup_cons in Hnodup as [Hfresh Hnodup].
      destruct i as [|i]; simpl in Hi.
      * injection Hi as <-. rewrite Nat.add_0_r.
        assert (Forall (λ op, opRef op ≠ ("circles", autoId n))
                  (circleOps autoId fbUser (S n) rest)) as Hrefs.
        { apply Forall_forall. intros op Hop.
          apply list_elem_of_lookup in Hop as [j Hj].
          rewrite circleOps_lookup in Hj.
          destruct (rest !! j) as [cdj|] eqn:Hrj; [|done]. injection Hj as <-. simpl.
          intros [= Heq]. apply Hfresh. rewrite <-Heq.
          apply list_elem_of_fmap. exists (S n + j). split; [done|].
          apply elem_of_seq. apply lookup_lt_Some in Hrj. lia. }
        rewrite (apply_ops_frame _ _ _ _ Hrefs Hap). apply lookup_insert_eq.
      * replace (n + S i) with (S n + i) by lia. by apply Hdocs.
Qed.

(** C6.  The batch as staged by steps 1 and 2 is the merge write of the
    user document followed by one plain [set] per default circle, each on
    a freshly drawn circle id with [ownerId] the new user's id and
    [memberIds] the list holding only that id; with distinct ids, applying
    the batch leaves one such document per default circle next to the user
    document; a commit applies a batch whole or not at all. *)
Theorem C6_one_circle_per_default_kind_in_the_batch
    (circles : list Document) (autoId : nat → string)
    (fbUser : FirebaseUser) (ad : AdditionalData) (w : World) :
  NoDup (autoId <$> seq (idsDrawn w) (length circles)) →
  (stagedBatch circles autoId fbUser ad w).1
    = OpSet (userDocRef fbUser) (newUser fbUser ad) true
        :: circleOps autoId fbUser (idsDrawn w) circles
  ∧ length (circleOps autoId fbUser (idsDrawn w) circles) = length circles
  ∧ (∀ i circleData, circles !! i = Some circleData →
       circleOps autoId fbUser (idsDrawn w) circles !! i
         = Some (OpSet ("circles", autoId (idsDrawn w + i))
                       (dataWithOwner fbUser circleData) false)
       ∧ dataWithOwner fbUser circleData !! "ownerId" = Some (VString (uid fbUser))
       ∧ dataWithOwner fbUser circleData !! "memberIds"
           = Some (VArray [VString (uid fbUser)]))
  ∧ (∃ s', apply_ops (store w) (stagedBatch circles autoId fbUser ad w).1 = Some s'
           ∧ is_Some (s' !! userDocRef fbUser)
           ∧ ∀ i circleData, circles !! i = Some circleData →
               s' !! ("circles", autoId (idsDrawn w + i))
                 = Some (dataWithOwner fbUser circleData))
  ∧ (∀ unreachable batch w0,
       match (commit unreachable batch w0).1 with
       | Fulfilled _ =>
           apply_ops (store w0) batch = Some (store (commit unreachable batch w0).2)
       | Rejected _ => (commit unreachable batch w0).2 = w0
       end)
  ∧ length (stagedBatch defaultCircles autoId fbUser ad w).1 = 5.
Proof.
  intros Hnodup. rewrite !stagedBatch_eq. simpl.
  split; [done|]. split; [apply length_imap|]. split; [|split; [|split]].
  - intros i circleData Hi. rewrite circleOps_lookup, Hi. simpl.
    by rewrite dataWithOwner_ownerId, dataWithOwner_memberIds.
  - destruct (apply_circleOps autoId fbUser circles (idsDrawn w)
                (<[userDocRef fbUser :=
                     merge_doc (default ∅ (store w !! userDocRef fbUser))
                               (newUser fbUser ad)]> (store w)))
      as (s' & Hap & Hframe & Hdocs).
    exists s'. split; [done|]. split; [|by apply Hdocs].
    rewrite Hframe by done. rewrite lookup_insert_eq. by eexists.
  - intros unreachable batch w0. unfold commit.
    destruct unreachable; [done|].
    by destruct (apply_ops (store w0) batch).
  - done.
Qed.

Lemma C6_witness :
  NoDup (idOf <$> seq (idsDrawn worldA) (length defaultCircles))
  ∧ (stagedBatch defaultCircles idOf fbA adA worldA).1
    = [ OpSet ("users", "u1") (newUser fbA adA) true;
        OpSet ("circles", "auto0") (dataWithOwner fbA {["name" := VString "Friends"]}) false;
        OpSet ("circles", "auto1") (dataWithOwner fbA {["name" := VString "Family"]}) false;
        OpSet ("circles", "auto2") (dataWithOwner fbA {["name" := VString "Work"]}) false;
        OpSet ("circles", "auto3") (dataWithOwner fbA {["name" := VString "General"]}) false ].
Proof.
  assert (NoDup (idOf <$> seq (idsDrawn worldA) (length defaultCircles))) as Hnodup.
  { apply (bool_decide_unpack _). vm_compute. exact I. }
  split; [exact Hnodup|].
  rewrite (proj1 (C6_one_circle_per_default_kind_in_the_batch defaultCircles idOf
                    fbA adA worldA Hnodup)).
  reflexivity.
Defined.

(** The spec's scenario: provisioning a@x.com with one pending invite and
    four default circles completes and leaves the user document, four
    circles owned by the new user, and the invite pointing at the new id. *)
Example provisioning_scenario :
  let out := createNewUserData defaultCircles idOf (processInvitesDirect None) None
               fbA adA worldA in
  out.1 = Fulfilled tt
  ∧ fieldOf (store out.2) ("users", "u1") "displayName" = Some (VString "Ann Lee")
  ∧ fieldOf (store out.2) ("invites", "inv1") "toUserId" = Some (VString "u1")
  ∧ fieldOf (store out.2) ("circles", "auto1") "name" = Some (VString "Family")
  ∧ fieldOf (store out.2) ("circles", "auto1") "ownerId" = Some (VString "u1")
  ∧ size (filter (λ kv, kv.1.1 = "circles") (store out.2)) = 4.
Proof. vm_compute. repeat split. Qed.

(** C7, as the code has it.  The invite-processing step runs only for an
    identity with an email, on the batch and world that steps 1 and 2
    left; when it is rejected the function is rejected with the same
    reason and the world is the one the step left, no staged write having
    been applied; when it is fulfilled the commit runs after it, on the
    batch and the world as the step left them.  So the function ends
    either rejected with the step's world untouched by the batch, or
    fulfilled with the whole batch applied on top of the step's world. *)
Theorem C7_invite_step_runs_before_commit_and_gates_it
    (circles : list Document) (autoId : nat → string)
    (processInvites : WriteBatch → string → string → World → Settled unit * WriteBatch * World)
    (unreachable : option string) (fbUser : FirebaseUser) (ad : AdditionalData)
    (w : World) :
  let staged := stagedBatch circles autoId fbUser ad w in
  let step := processInvitesStep processInvites fbUser staged.1 staged.2 in
  let out := createNewUserData circles autoId processInvites unreachable fbUser ad w in
  (if truthy_string (fb_email fbUser)
   then step = processInvites staged.1 (uid fbUser) (default "" (fb_email fbUser)) staged.2
   else step = (Fulfilled tt, staged.1, staged.2))
  ∧ store staged.2 = store w
  ∧ match step.1.1 with
    | Rejected reason => out = (Rejected reason, step.2)
    | Fulfilled _ => out = commit unreachable step.1.2 step.2
    end
  ∧ match out.1 with
    | Rejected _ => out.2 = step.2
    | Fulfilled _ => apply_ops (store step.2) step.1.2 = Some (store out.2)
    end.
Proof.
  simpl. unfold createNewUserData, processInvitesStep.
  rewrite stagedBatch_eq. simpl.
  split; [by destruct (truthy_string (fb_email fbUser))|]. split; [done|].
  set (step := if truthy_string (fb_email fbUser) then _ else _).
  destruct step as [[[[]|reason] batch'] w2]; simpl; [|done].
  split; [done|]. unfold commit. destruct unreachable; [done|].
  by destruct (apply_ops (store w2) batch').
Qed.

(** With an invite step that fails, provisioning is rejected and the store
    is left without the user document and without any circle: the batch
    of user and circle writes does not survive the failure. *)
Lemma C7_counterexample :
  (createNewUserData defaultCircles idOf (processInvitesDirect (Some "invites-unavailable"))
     None fbA adA worldA).1 = Rejected "invites-unavailable"
  ∧ store (createNewUserData defaultCircles idOf
             (processInvitesDirect (Some "invites-unavailable")) None fbA adA worldA).2
    = store worldA
  ∧ store worldA !! ("users", "u1") = None
  ∧ ¬ batch_survives_invite_failure.
Proof.
  split; [reflexivity|]. split; [reflexivity|]. split; [reflexivity|].
  intros Hclaim.
  specialize (Hclaim defaultCircles idOf
                (processInvitesDirect (Some "invites-unavailable")) fbA adA worldA eq_refl).
  apply (f_equal (λ o : option Store,
                    o ≫= (λ s : Store, fieldOf s ("users", "u1") "isPremium"))) in Hclaim.
  vm_compute in Hclaim. discriminate.
Qed.

(** * Properties of the circle detail page *)

(** The controls of a row: nothing on the current user's own row;
    otherwise the rate controls outside Family, Suggest Goal in Family for
    a premium viewer, Remove for the circle's owner. *)
Lemma rowControls_MemberListItem currentUser member circle currentUserId lastRatedAt :
  rowControls (MemberListItem currentUser member circle currentUserId lastRatedAt)
  = if bool_decide (User.id member = currentUserId) then []
    else match lastRatedAt with
         | Some t => when (notFamily circle) (RatedLabel t)
         | None => []
         end ++
         when (notFamily circle)
           (RateLink (evaluateHref circle member)
              (if lastRatedAt is Some _ then "Re-rate" else "Rate")
              (if lastRatedAt is Some _ then "outline" else "default")) ++
         when (bool_decide (Circle.name circle = Family) &&
               truthy_bool (currentUser ≫= User.isPremium))
           (SuggestGoalButton (CallOnSuggestGoal member)) ++
         when (bool_decide (Circle.ownerId circle = currentUserId))
           (RemoveButton (CallOnRemove member)).
Proof.
  unfold rowControls, MemberListItem. simpl.
  by destruct (bool_decide (User.id member = currentUserId)), lastRatedAt.
Qed.

(** A Remove button is rendered exactly on the rows of other members when
    the current user owns the circle. *)
Lemma remove_rendered_iff currentUser member circle currentUserId lastRatedAt :
  (∃ c, c ∈ rowControls (MemberListItem currentUser member circle currentUserId lastRatedAt)
        ∧ isRemoveButton c = true)
  ↔ Circle.ownerId circle = currentUserId ∧ User.id member ≠ currentUserId.
Proof.
  rewrite rowControls_MemberListItem. unfold when. split.
  - intros (c & Hin & Hrm).
    destruct (bool_decide_reflect (User.id member = currentUserId)) as [|Hself];
      [by apply elem_of_nil in Hin|].
    destruct (bool_decide_reflect (Circle.ownerId circle = currentUserId)) as [|Hown];
      [done|].
    exfalso. rewrite !elem_of_app in Hin.
    destruct lastRatedAt, (notFamily circle), (bool_decide _ && _);
      repeat match goal with
             | H : _ ∨ _ |- _ => destruct H
             | H : _ ∈ _ :: _ |- _ => apply elem_of_cons in H as [->|H]
             | H : _ ∈ [] |- _ => by apply elem_of_nil in H
             end; simpl in Hrm; discriminate.
  - intros [Hown Hother].
    rewrite bool_decide_eq_false_2, (bool_decide_eq_true_2 _ Hown) by done.
    exists (RemoveButton (CallOnRemove member)). split; [|done].
    rewrite !elem_of_app. do 3 right. apply list_elem_of_here.
Qed.

Lemma removal_needs_remove_button (cs : list Control) (a : Action) :
  a ∈ omap controlAction cs → isRemoval a = true →
  (∃ c, c ∈ cs ∧ isRemoveButton c = true)
  ∨ (∃ m, SuggestGoalButton (CallOnRemove m) ∈ cs).
Proof.
  intros Hin Hrm. apply list_elem_of_omap in Hin as (c & Hc & Hact).
  destruct c as [t|href l v|act|act]; simpl in Hact; try discriminate.
  - injection Hact as <-. discriminate.
  - injection Hact as ->. destruct a as [m| |]; try discriminate. right. by exists m.
  - left. by exists (RemoveButton act).
Qed.

(** C9.  On every row rendered for a current user who is not the circle's
    owner there is no Remove button, and nothing the row offers calls
    [onRemove]. *)
Theorem C9_non_owner_has_no_remove_control
    (currentUser : option User.t) (member : User.t) (circle : Circle.t)
    (currentUserId : string) (lastRatedAt : option Timestamp) :
  Circle.ownerId circle ≠ currentUserId →
  (∀ c, c ∈ rowControls (MemberListItem currentUser member circle currentUserId lastRatedAt) →
        isRemoveButton c = false)
  ∧ (∀ a, a ∈ rowActions (MemberListItem currentUser member circle currentUserId lastRatedAt) →
          isRemoval a = false).
Proof.
  intros Hnot.
  assert (∀ c, c ∈ rowControls (MemberListItem currentUser member circle currentUserId lastRatedAt) →
               isRemoveButton c = false) as Hnone.
  { intros c Hin. destruct (isRemoveButton c) eqn:Hrm; [|done].
    destruct (proj1 (remove_rendered_iff currentUser member circle currentUserId lastRatedAt))
      as [Hown _]; [by exists c|by destruct Hnot]. }
  split; [done|].
  intros a Hin. destruct (isRemoval a) eqn:Hrm; [|done].
  destruct (removal_needs_remove_button _ _ Hin Hrm) as [(c & Hc & Hb)|(m & Hm)].
  - by rewrite (Hnone c Hc) in Hb.
  - rewrite rowControls_MemberListItem in Hm. unfold when in Hm.
    destruct (bool_decide (User.id member = currentUserId));
      [by apply elem_of_nil in Hm|].
    rewrite !elem_of_app in Hm.
    destruct lastRatedAt, (notFamily circle), (bool_decide _ && _), (bool_decide _);
      repeat match goal with
             | H : _ ∨ _ |- _ => destruct H
             | H : _ ∈ _ :: _ |- _ => apply elem_of_cons in H as [?|H]
             | H : _ ∈ [] |- _ => by apply elem_of_nil in H
             end; discriminate.
Qed.

(** Bob, not the owner, looks at Ann's row in Ann's family circle. *)
Lemma C9_witness :
  Circle.ownerId annsFamily ≠ "u2"
  ∧ ∀ a, a ∈ rowActions (MemberListItem (Some bob) ann annsFamily "u2" None) →
         isRemoval a = false.
Proof.
  assert (Circle.ownerId annsFamily ≠ "u2") as Hnot by discriminate.
  split; [exact Hnot|].
  exact (proj2 (C9_non_owner_has_no_remove_control (Some bob) ann annsFamily "u2" None Hnot)).
Defined.

(** The rows of Ann's family circle as Bob and as Ann see them. *)
Example rows_of_anns_family :
  rowActions (MemberListItem (Some bob) ann annsFamily "u2" None) = []
  ∧ rowActions (MemberListItem (Some ann) bob annsFamily "u1" None)
    = [CallOnSuggestGoal bob; CallOnRemove bob]
  ∧ rowActions (MemberListItem (Some ann) ann annsFamily "u1" None) = [].
Proof. repeat split. Qed.

(** C10.  On the row of the current user the action area is not rendered:
    the row has no control and offers no action, whoever owns the
    circle. *)
Theorem C10_own_row_has_no_controls
    (currentUser : option User.t) (member : User.t) (circle : Circle.t)
    (currentUserId : string) (lastRatedAt : option Timestamp) :
  User.id member = currentUserId →
  actionArea (MemberListItem currentUser member circle currentUserId lastRatedAt) = None
  ∧ rowControls (MemberListItem currentUser member circle currentUserId lastRatedAt) = []
  ∧ rowActions (MemberListItem currentUser member circle currentUserId lastRatedAt) = [].
Proof.
  intros Hself. unfold rowActions, rowControls, MemberListItem. simpl.
  by rewrite (bool_decide_eq_true_2 _ Hself).
Qed.

(** Ann owns the circle and looks at her own row. *)
Lemma C10_witness :
  User.id ann = "u1" ∧ Circle.ownerId annsFamily = "u1"
  ∧ rowControls (MemberListItem (Some ann) ann annsFamily "u1" None) = [].
Proof.
  split; [reflexivity|]. split; [reflexivity|].
  exact (proj1 (proj2 (C10_own_row_has_no_controls (Some ann) ann annsFamily "u1" None eq_refl))).
Defined.

Lemma handleSend_without_trait onSend (d : Dialog) (w : World) :
  selectedTrait d = "" → handleSend onSend d w = mkSent [] (Fulfilled tt) d w.
Proof. intros Hnone. unfold handleSend. by rewrite Hnone. Qed.

Lemma handleSend_with_trait onSend (d : Dialog) (w : World) :
  selectedTrait d ≠ "" →
  handleSend onSend d w
  = match (onSend (selectedTrait d) w).1 with
    | Fulfilled _ =>
        mkSent [selectedTrait d] (Fulfilled tt) (mkDialog false (selectedTrait d) false)
               (onSend (selectedTrait d) w).2
    | Rejected reason =>
        mkSent [selectedTrait d] (Rejected reason)
               (mkDialog (isOpen d) (selectedTrait d) true) (onSend (selectedTrait d) w).2
    end.
Proof.
  intros Hsome. unfold handleSend. simpl.
  apply String.eqb_neq in Hsome. rewrite Hsome. simpl.
  by destruct (onSend (selectedTrait d) w) as [[[]|reason] w1].
Qed.

Lemma goalDocument_status fromUserId toUserId T tip :
  goalDocument fromUserId toUserId T tip !! "status" = Some (VString "pending").
Proof.
  unfold goalDocument.
  destruct tip; repeat (rewrite lookup_insert_ne by done); apply lookup_insert_eq.
Qed.

Lemma goalDocument_trait fromUserId toUserId T tip :
  goalDocument fromUserId toUserId T tip !! "trait" = Some (VString T).
Proof.
  unfold goalDocument.
  destruct tip; repeat (rewrite lookup_insert_ne by done); apply lookup_insert_eq.
Qed.

(** C8.  With no trait selected, sending (once or any number of times)
    calls [onSend] not at all and leaves the dialog and the store as they
    are; once a trait T is chosen, sending calls [onSend] with T exactly
    once, and the goal write that [onSend] stands for leaves a FamilyGoal
    document with status pending and trait T, after which the dialog is
    closed and no longer submitting. *)
Theorem C8_send_needs_a_selected_trait
    (onSend : string → World → Settled unit * World)
    (autoId : nat → string) (tip : option string) (fromUserId toUserId : string)
    (d : Dialog) (w : World) (T : string) :
  selectedTrait d = "" →
  T ≠ "" →
  handleSend onSend d w = mkSent [] (Fulfilled tt) d w
  ∧ (∀ n, sendRepeatedly onSend n d w = mkSent [] (Fulfilled tt) d w)
  ∧ onSendCalls (handleSend onSend (setSelectedTrait T d) w) = [T]
  ∧ (let sent := handleSend (sendFamilyGoal autoId None tip fromUserId toUserId)
                   (setSelectedTrait T d) w in
     onSendCalls sent = [T]
     ∧ settled sent = Fulfilled tt
     ∧ dialog sent = mkDialog false T false
     ∧ ∃ doc, store (world sent) !! ("familyGoals", autoId (idsDrawn w)) = Some doc
              ∧ doc !! "status" = Some (VString "pending")
              ∧ doc !! "trait" = Some (VString T)).
Proof.
  intros Hnone HT.
  split; [by apply handleSend_without_trait|]. split; [|split].
  - intros n. induction n as [|n IH]; [done|]. simpl.
    rewrite handleSend_without_trait by done. simpl. by rewrite IH.
  - rewrite handleSend_with_trait by done. simpl.
    by destruct (onSend T w).1.
  - simpl. rewrite handleSend_with_trait by done. simpl.
    repeat split. eexists. split; [apply lookup_insert_eq|].
    split; [apply goalDocument_status|apply goalDocument_trait].
Qed.

(** Ann opens the dialog for Bob, presses send, chooses "Patience", and
    presses send again. *)
Lemma C8_witness :
  selectedTrait openedDialog = "" ∧ "Patience" ≠ ""
  ∧ handleSend (sendFamilyGoal idOf None None "u1" "u2") openedDialog worldA
    = mkSent [] (Fulfilled tt) openedDialog worldA
  ∧ fieldOf (store (world (handleSend (sendFamilyGoal idOf None None "u1" "u2")
                             (setSelectedTrait "Patience" openedDialog) worldA)))
            ("familyGoals", "auto0") "trait" = Some (VString "Patience").
Proof.
  assert ("Patience" ≠ "") as HT by discriminate.
  split; [reflexivity|]. split; [exact HT|].
  split; [|reflexivity].
  exact (proj1 (C8_send_needs_a_selected_trait (sendFamilyGoal idOf None None "u1" "u2")
                  idOf None "u1" "u2" openedDialog worldA "Patience" eq_refl HT)).
Defined.

(** A plain [set] on the same document would have dropped the field that
    the merge keeps. *)
Example plain_set_drops_what_merge_keeps :
  (apply_op (store worldStripe) (OpSet ("users", "u1") (newUser fbA adA) true)
     ≫= λ s, fieldOf s ("users", "u1") "stripeId") = Some (VString "cus_1")
  ∧ (apply_op (store worldStripe) (OpSet ("users", "u1") (newUser fbA adA) false)
       ≫= λ s, fieldOf s ("users", "u1") "stripeId") = None.
Proof. split; reflexivity. Qed.

(** Merging a nested map goes field by field; arrays and scalars replace. *)
Example merge_doc_nested :
  merge_doc {[ "a" := VMap [("y", VNumber 2)]; "b" := VNumber 3 ]}
            {[ "a" := VMap [("x", VNumber 1)]; "c" := VArray [] ]}
  = {[ "a" := VMap [("y", VNumber 2); ("x", VNumber 1)];
       "b" := VNumber 3; "c" := VArray [] ]}.
Proof. apply map_eq. intros k. vm_compute. reflexivity. Qed.

(** * Further properties of the layout component *)

(** X1.  The guard pushes a route exactly when the session is resolved
    without a user, and then it is /login; the sidebar and page are on
    screen exactly for a resolved session with a user; whenever the guard
    redirects, the spinner is on screen and the notification effect issues
    no read and leaves the badges alone. *)
Theorem session_guard_redirect_and_screen
    (da : DataAccess) (loading : bool) (user : option User.t) (st : Badges) :
  (sessionGuardEffect loading user = ["/login"] ↔ loading = false ∧ user = None)
  ∧ (sessionGuardEffect loading user = [] ↔ loading = true ∨ is_Some user)
  ∧ (∀ u, screen loading user = Content u ↔ loading = false ∧ user = Some u)
  ∧ (sessionGuardEffect loading user ≠ [] →
       screen loading user = Spinner
       ∧ notificationEffect user st = mkRun [] (Fulfilled tt) st).
Proof.
  unfold sessionGuardEffect, screen. destruct user as [u|].
  - rewrite (bool_decide_eq_true_2 (is_Some (Some u))) by eauto.
    rewrite andb_false_r. simpl. split; [|split; [|split]].
    + split; [done|]. by intros [_ ?].
    + split; [|done]. intros _. right. eauto.
    + intros u'. destruct loading; split; try done.
      * by intros [? _].
      * by intros [= ->].
      * by intros [_ [= ->]].
    + done.
  - rewrite (bool_decide_eq_false_2 (is_Some None)) by apply is_Some_None.
    destruct loading; simpl; (split; [|split; [|split]]).
    + split; [done|]. by intros [? _].
    + split; [|done]. intros _. by left.
    + intros u'. split; [done|]. by intros [? _].
    + done.
    + done.
    + split; [done|]. by intros [?|[? ?]].
    + intros u'. split; [done|]. by intros [_ ?].
    + done.
Qed.

(** X2.  Whatever the reads answer, a cycle issues the invites read, then
    the reveal-request read if and only if the user is premium, then the
    goals read, each once and each for the signed-in user's id: a failing
    read does not keep the others from being issued. *)
Theorem cycle_issues_each_read_once_for_the_user
    (da : DataAccess) (user : User.t) (st : Badges) :
  requests (fetchNotifications user st)
  = [ReqReceivedInvites (User.id user)]
    ++ (if truthy_bool (User.isPremium user) then [ReqRevealRequests (User.id user)] else [])
    ++ [ReqFamilyGoals (User.id user)].
Proof.
  unfold fetchNotifications, fetches, Promise_all3, Promise_resolve. simpl.
  destruct (getReceivedInvitesForUser (User.id user));
    destruct (truthy_bool (User.isPremium user)); simpl;
    try destruct (getRevealRequestsForUser (User.id user)); simpl;
    by destruct (getFamilyGoalsForUser (User.id user)).
Qed.

Lemma fetchNotifications_rejected (da : DataAccess) (user : User.t) (st : Badges) reason :
  result (fetchNotifications user st) = Rejected reason →
  badges (fetchNotifications user st) = st
  ∧ ∀ st', result (fetchNotifications user st') = Rejected reason.
Proof.
  unfold fetchNotifications.
  destruct (outcome (fetches user)) as [[[? ?] ?]|?]; [discriminate|].
  simpl. by intros [= ->].
Qed.

(** X3.  Counts are replaced, not accumulated: the badges of a completed
    cycle do not depend on the badges before it, and running the same
    cycle again on its own result changes nothing. *)
Theorem cycle_replaces_counts
    (da : DataAccess) (user : User.t) (st st' : Badges) :
  (result (fetchNotifications user st) = Fulfilled tt →
     badges (fetchNotifications user st') = badges (fetchNotifications user st))
  ∧ badges (fetchNotifications user (badges (fetchNotifications user st)))
    = badges (fetchNotifications user st).
Proof.
  assert (∀ a b, result (fetchNotifications user a) = Fulfilled tt →
                 badges (fetchNotifications user b) = badges (fetchNotifications user a))
    as Hindep.
  { intros a b. unfold fetchNotifications.
    by destruct (outcome (fetches user)) as [[[? ?] ?]|?]. }
  split; [apply Hindep|].
  destruct (result (fetchNotifications user st)) as [[]|reason] eqn:Hres.
  - by apply Hindep.
  - destruct (fetchNotifications_rejected da user st reason Hres) as [-> Hall].
    by apply (fetchNotifications_rejected da user st reason).
Qed.

Lemma count_of_zero {A} (P : A → Prop) `{∀ x, Decision (P x)} (l : list A) :
  count_of P l = 0 ↔ ∀ x, x ∈ l → ¬ P x.
Proof.
  induction l as [|x l IH]; simpl.
  - split; [|done]. intros _ x Hx. by apply elem_of_nil in Hx.
  - destruct (decide (P x)) as [Hp|Hn]; simpl.
    + split; [done|]. intros Hall. destruct (Hall x); [left|done].
    + rewrite IH. split.
      * intros Hall y [->|Hy]%elem_of_cons; auto.
      * intros Hall y Hy. apply Hall. by right.
Qed.

(** X4.  After a completed cycle the Requests entry shows a badge exactly
    when some received invite is pending with a circle, the badge then
    carries their number, and it never carries 0 and never more than the
    number of received invites. *)
Theorem requests_badge_shown_iff_actionable_invite
    (da : DataAccess) (user : User.t) (st : Badges) (received : list Invite.t) :
  getReceivedInvitesForUser (User.id user) = Fulfilled received →
  result (fetchNotifications user st) = Fulfilled tt →
  (requestsBadge (badges (fetchNotifications user st)) = None
     ↔ ∀ i, i ∈ received → ¬ pending_with_circle i)
  ∧ (∀ n, requestsBadge (badges (fetchNotifications user st)) = Some n →
       n = count_of pending_with_circle received ∧ 0 < n ≤ length received).
Proof.
  intros Hrecv Hok.
  destruct (fetchNotifications_fulfilled user st Hok)
    as (invs & reveals & goals & Hinv & _ & _ & ->).
  rewrite Hrecv in Hinv. injection Hinv as <-.
  unfold requestsBadge, menuBadge. simpl. rewrite length_actionableInvites.
  pose proof (count_of_zero pending_with_circle received) as Hzero.
  assert (count_of pending_with_circle received ≤ length received) as Hle.
  { rewrite <-length_actionableInvites. unfold actionableInvites.
    apply List.filter_length_le. }
  destruct (count_of pending_with_circle received) as [|k]; simpl.
  - split; [|by intros n]. split; [intros _; by apply Hzero|done].
  - split; [|intros n [= <-]; lia]. split; [done|].
    intros Hnone. by apply Hzero in Hnone.
Qed.

Lemma X4_witness :
  getReceivedInvitesForUser (DataAccess := storeAccess exampleDb) (User.id userP)
    = Fulfilled (receivedInvitesOf exampleDb "P")
  ∧ (requestsBadge (badges (fetchNotifications (H := storeAccess exampleDb) userP initialBadges))
       = Some 2 →
     2 = count_of pending_with_circle (receivedInvitesOf exampleDb "P")
     ∧ 0 < 2 ≤ length (receivedInvitesOf exampleDb "P")).
Proof.
  split; [reflexivity|].
  exact (proj2 (requests_badge_shown_iff_actionable_invite (storeAccess exampleDb) userP
                  initialBadges (receivedInvitesOf exampleDb "P") eq_refl eq_refl) 2).
Defined.

Lemma prefix_two (a b : Ascii.ascii) (p s : string) :
  String.prefix (String a (String b p)) s = true → ∃ r, s = String a (String b r).
Proof.
  destruct s as [|c1 [|c2 r]]; simpl; try done.
  - by destruct (Ascii.ascii_dec a c1).
  - destruct (Ascii.ascii_dec a c1) as [->|]; [|done].
    destruct (Ascii.ascii_dec b c2) as [->|]; [|done]. eauto.
Qed.

Lemma prefix_app (p r : string) : String.prefix p (p +:+ r) = true.
Proof.
  induction p as [|c p IH]; simpl; [by destruct r|].
  by destruct (Ascii.ascii_dec c c).
Qed.

(** The second character of each entry's route. *)
Lemma menuActive_shape (pathname : string) (m : MenuItem) :
  menuActive pathname m = true →
  ∃ r, pathname
       = String "/" (String match m with
                            | Dashboard => "d" | Search => "s" | Requests => "i"
                            | FamilyGoals => "g" | EcoRating => "e"
                            | AttractionRatings => "a"
                            end%char r).
Proof.
  destruct m; simpl; unfold isActive; simpl href;
    try (intros H; by apply prefix_two in H).
  intros ->%String.eqb_eq. eauto.
Qed.

(** X5.  For every pathname at most one of the menu entries is marked
    active; an entry other than the dashboard stays active on every route
    that extends its own, and the dashboard is active on /dashboard
    only. *)
Theorem at_most_one_menu_entry_active (pathname : string) (m1 m2 : MenuItem) :
  (menuActive pathname m1 = true → menuActive pathname m2 = true → m1 = m2)
  ∧ (∀ rest, m1 ≠ Dashboard → menuActive (href m1 +:+ rest) m1 = true)
  ∧ (menuActive pathname Dashboard = true ↔ pathname = "/dashboard").
Proof.
  split; [|split].
  - intros [r1 H1]%menuActive_shape [r2 H2]%menuActive_shape.
    rewrite H1 in H2. by destruct m1, m2.
  - intros rest Hm. destruct m1; try done; apply prefix_app.
  - apply String.eqb_eq.
Qed.

(** * Further properties of user provisioning *)

Lemma split_space_shape (s : string) :
  ∃ F rest, split_space s = F :: rest
            ∧ has_space F = false
            ∧ (if has_space s then rest ≠ [] else rest = [] ∧ F = s).
Proof.
  induction s as [|c s (F & rest & Hs & HF & Hrest)]; simpl.
  - by exists "", [].
  - rewrite Hs. destruct (Ascii.eqb c " ") eqn:Hc; simpl.
    + by exists "", (F :: rest).
    + exists (String c F), rest. simpl. rewrite Hc, HF.
      split; [done|]. split; [done|].
      destruct (has_space s); [done|]. destruct Hrest as [-> ->]. done.
Qed.

Lemma split_space_join (s : string) : join_space (split_space s) = s.
Proof.
  unfold join_space. induction s as [|c s IH]; [done|]. simpl.
  destruct (split_space_shape s) as (F & rest & Hs & _ & _). rewrite Hs in *.
  destruct (Ascii.eqb c " ") eqn:Hc.
  - apply Ascii.eqb_eq in Hc as ->.
    transitivity (String " " (String.concat " " (F :: rest))); [reflexivity|].
    by rewrite IH.
  - transitivity (String c (String.concat " " (F :: rest))); [|by rewrite IH].
    by destruct rest.
Qed.

Lemma or_string_same (s : string) : or_string (Some s) "" = s.
Proof. unfold or_string. simpl. by destruct s. Qed.

Lemma first_truthy_falsy (a : option string) (s : string) :
  truthy_string a = false → first_truthy a (Some s) = s.
Proof.
  intros Ha. unfold first_truthy, or_else. rewrite Ha. apply or_string_same.
Qed.

Lemma newUser_firstName fbUser ad :
  newUser fbUser ad !! "firstName"
  = Some (VString (first_truthy (ad_firstName ad)
            ((λ d, default "" (head (split_space d))) <$> fb_displayName fbUser))).
Proof.
  unfold newUser. repeat (rewrite lookup_insert_ne by done). apply lookup_insert_eq.
Qed.

Lemma newUser_lastName fbUser ad :
  newUser fbUser ad !! "lastName"
  = Some (VString (first_truthy (ad_lastName ad)
            ((λ d, join_space (tail (split_space d))) <$> fb_displayName fbUser))).
Proof.
  unfold newUser. repeat (rewrite lookup_insert_ne by done). apply lookup_insert_eq.
Qed.

Lemma newUser_displayName fbUser ad :
  newUser fbUser ad !! "displayName" = Some (VString (Data.displayName fbUser ad)).
Proof. unfold newUser. apply lookup_insert_eq. Qed.

Lemma newUser_displayName_lowercase fbUser ad :
  newUser fbUser ad !! "displayName_lowercase"
  = Some (VString (toLowerCase (Data.displayName fbUser ad))).
Proof.
  unfold newUser. repeat (rewrite lookup_insert_ne by done). apply lookup_insert_eq.
Qed.

(** X6.  When the names are not supplied separately, the stored first and
    last name are the display name cut at its first space: the first name
    has no space in it, and the display name is the first name alone when
    it has no space (the last name is then empty) and otherwise the first
    name, a space, and the last name. *)
Theorem names_are_the_display_name_cut_at_its_first_space
    (fbUser : FirebaseUser) (ad : AdditionalData) (d : string) :
  fb_displayName fbUser = Some d →
  truthy_string (ad_firstName ad) = false →
  truthy_string (ad_lastName ad) = false →
  ∃ F L,
    newUser fbUser ad !! "firstName" = Some (VString F)
    ∧ newUser fbUser ad !! "lastName" = Some (VString L)
    ∧ has_space F = false
    ∧ (if has_space d then d = F +:+ " " +:+ L else d = F ∧ L = "").
Proof.
  intros Hd Hf Hl.
  rewrite newUser_firstName, newUser_lastName, Hd. simpl.
  rewrite !first_truthy_falsy by done.
  pose proof (split_space_join d) as Hjoin.
  destruct (split_space_shape d) as (F & rest & Hs & HF & Hrest).
  rewrite Hs in *. simpl. exists F, (join_space rest).
  split; [done|]. split; [done|]. split; [done|].
  destruct (has_space d).
  - destruct rest as [|y rest]; [done|]. by rewrite <-Hjoin.
  - by destruct Hrest as [-> ->].
Qed.

Lemma X6_witness :
  fb_displayName fbGoogle = Some "Mary Ann Smith"
  ∧ ∃ F L,
      newUser fbGoogle noAdditionalData !! "firstName" = Some (VString F)
      ∧ newUser fbGoogle noAdditionalData !! "lastName" = Some (VString L)
      ∧ has_space F = false
      ∧ "Mary Ann Smith" = F +:+ " " +:+ L.
Proof.
  split; [reflexivity|].
  exact (names_are_the_display_name_cut_at_its_first_space fbGoogle noAdditionalData
           "Mary Ann Smith" eq_refl eq_refl eq_refl).
Defined.

(** X7.  For an identity without a display name (null or empty) and with
    no additional data, the two missing names are printed into the
    template: the stored display name is "undefined undefined", its
    lowercase copy is the same, and the stored first and last names are
    empty. *)
Theorem missing_names_are_stored_as_undefined (fbUser : FirebaseUser) :
  truthy_string (fb_displayName fbUser) = false →
  newUser fbUser noAdditionalData !! "displayName" = Some (VString "undefined undefined")
  ∧ newUser fbUser noAdditionalData !! "displayName_lowercase"
    = Some (VString "undefined undefined")
  ∧ newUser fbUser noAdditionalData !! "firstName" = Some (VString "")
  ∧ newUser fbUser noAdditionalData !! "lastName" = Some (VString "").
Proof.
  intros Hnone.
  rewrite newUser_displayName, newUser_displayName_lowercase,
    newUser_firstName, newUser_lastName.
  assert (Data.displayName fbUser noAdditionalData = "undefined undefined") as ->.
  { unfold Data.displayName, or_string. by rewrite Hnone. }
  destruct (fb_displayName fbUser) as [d|]; [|done].
  simpl in Hnone. apply negb_false_iff, String.eqb_eq in Hnone as ->. done.
Qed.

Lemma X7_witness :
  truthy_string (fb_displayName fbBare) = false
  ∧ newUser fbBare noAdditionalData !! "displayName" = Some (VString "undefined undefined").
Proof.
  split; [reflexivity|].
  exact (proj1 (missing_names_are_stored_as_undefined fbBare eq_refl)).
Defined.

Lemma apply_ops_app (a b : WriteBatch) (s : Store) :
  apply_ops s (a ++ b) = apply_ops s a ≫= λ s1, apply_ops s1 b.
Proof.
  revert s. induction a as [|op a IH]; intros s; simpl; [done|].
  destruct (apply_op s op); [apply IH|done].
Qed.

Lemma circleOps_miss autoId fbUser n circles (ref : DocRef) :
  (∀ i, i < length circles → ref ≠ ("circles", autoId (n + i))) →
  Forall (λ op, opRef op ≠ ref) (circleOps autoId fbUser n circles).
Proof.
  intros Hmiss. apply Forall_forall. intros op Hop.
  apply list_elem_of_lookup in Hop as [i Hi]. rewrite circleOps_lookup in Hi.
  destruct (circles !! i) as [cd|] eqn:Hc; [|done]. injection Hi as <-. simpl.
  intros Heq. apply (Hmiss i); [by apply lookup_lt_Some in Hc|done].
Qed.

(** The values of the payload are scalars: a merge writes them as they
    are. *)
Lemma newUser_scalar fbUser ad (k : string) (x o : Value) :
  newUser fbUser ad !! k = Some x → merge_value o x = x.
Proof.
  unfold newUser. intros Hk.
  repeat (apply lookup_insert_Some in Hk as [[_ <-]|[_ Hk]]; [done|]).
  by rewrite lookup_empty in Hk.
Qed.

Lemma merge_doc_newUser fbUser ad (old : gmap string Value) :
  merge_doc old (newUser fbUser ad) = newUser fbUser ad ∪ old.
Proof.
  apply map_eq. intros k. unfold merge_doc.
  rewrite lookup_union_with, lookup_union.
  destruct (newUser fbUser ad !! k) as [x|] eqn:Hk, (old !! k) as [o|]; simpl; try done.
  by rewrite (newUser_scalar fbUser ad k x o Hk).
Qed.

Lemma newUser_fields fbUser ad :
  dom (newUser fbUser ad)
  = ({[ "displayName"; "firstName"; "lastName"; "displayName_lowercase"; "email";
        "photoUrl"; "createdAt"; "isPremium"; "revealTokens" ]} : gset string).
Proof. unfold newUser. rewrite !dom_insert_L, dom_empty_L. set_solver. Qed.

(** What a completed provisioning leaves, for an invite step that only
    deals with invites. *)
Lemma createNewUserData_fulfilled
    (circles : list Document) (autoId : nat → string)
    (processInvites : WriteBatch → string → string → World → Settled unit * WriteBatch * World)
    (unreachable : option string) (fbUser : FirebaseUser) (ad : AdditionalData) (w : World) :
  onlyInvites processInvites →
  (createNewUserData circles autoId processInvites unreachable fbUser ad w).1 = Fulfilled tt →
  idsDrawn w + length circles
    ≤ idsDrawn (createNewUserData circles autoId processInvites unreachable fbUser ad w).2
  ∧ store (createNewUserData circles autoId processInvites unreachable fbUser ad w).2
      !! userDocRef fbUser
    = Some (newUser fbUser ad ∪ default ∅ (store w !! userDocRef fbUser))
  ∧ (NoDup (autoId <$> seq (idsDrawn w) (length circles)) →
     ∀ i circleData, circles !! i = Some circleData →
       store (createNewUserData circles autoId processInvites unreachable fbUser ad w).2
         !! ("circles", autoId (idsDrawn w + i))
       = Some (dataWithOwner fbUser circleData))
  ∧ (∀ ref : DocRef,
       ref.1 ≠ "invites" → ref ≠ userDocRef fbUser →
       (∀ i, i < length circles → ref ≠ ("circles", autoId (idsDrawn w + i))) →
       store (createNewUserData circles autoId processInvites unreachable fbUser ad w).2 !! ref
       = store w !! ref).
Proof.
  intros Honly. unfold createNewUserData. rewrite stagedBatch_eq.
  set (w1 := mkWorld (store w) _).
  set (batch := OpSet _ _ _ :: _).
  assert (∃ r batch' w2 extra,
            processInvitesStep processInvites fbUser batch w1 = (r, batch', w2)
            ∧ batch' = batch ++ extra
            ∧ Forall (λ op, (opRef op).1 = "invites") extra
            ∧ (∀ ref : DocRef, ref.1 ≠ "invites" → store w2 !! ref = store w !! ref)
            ∧ idsDrawn w1 ≤ idsDrawn w2)
    as (r & batch' & w2 & extra & -> & -> & Hextra & Hsame & Hids).
  { unfold processInvitesStep. destruct (truthy_string (fb_email fbUser)).
    - destruct (Honly batch (uid fbUser) (default "" (fb_email fbUser)) w1)
        as ((extra & Hb & Hrefs) & Hst & Hid).
      destruct (processInvites _ _ _ _) as [[r batch'] w2]. simpl in *.
      by exists r, batch', w2, extra.
    - exists (Fulfilled tt), batch, w1, []. rewrite app_nil_r. by repeat split. }
  destruct r as [[]|reason]; [|done].
  unfold commit. destruct unreachable as [reason|]; [done|].
  destruct (apply_ops (store w2) (batch ++ extra)) as [s'|] eqn:Hap; [|done].
  intros _. simpl in Hap |- *.
  rewrite apply_ops_app in Hap.
  destruct (apply_circleOps autoId fbUser circles (idsDrawn w)
              (<[userDocRef fbUser :=
                   merge_doc (default ∅ (store w2 !! userDocRef fbUser))
                             (newUser fbUser ad)]> (store w2)))
    as (s1 & Hap1 & Hframe1 & Hdocs).
  rewrite Hap1 in Hap. simpl in Hap.
  assert (∀ ref : DocRef, ref.1 ≠ "invites" → s' !! ref = s1 !! ref) as Hframe2.
  { intros ref Href. apply (apply_ops_frame extra); [|done].
    eapply Forall_impl; [exact Hextra|].
    intros op Hop Heq. simpl in Hop. rewrite Heq in Hop. done. }
  split; [done|]. split; [|split].
  - rewrite Hframe2, Hframe1 by done. rewrite lookup_insert_eq.
    rewrite Hsame by done. by rewrite merge_doc_newUser.
  - intros Hnodup i circleData Hi. rewrite Hframe2 by done. by apply Hdocs.
  - intros ref Hinv Huser Hmiss. rewrite Hframe2 by done.
    rewrite (apply_ops_frame _ _ _ ref (circleOps_miss _ _ _ _ _ Hmiss) Hap1).
    rewrite lookup_insert_ne by done. by apply Hsame.
Qed.

Lemma onlyInvites_direct (down : option string) : onlyInvites (processInvitesDirect down).
Proof.
  intros batch uid email w. unfold processInvitesDirect.
  destruct down as [reason|]; simpl.
  - split; [exists []; by rewrite app_nil_r|]. by split.
  - split; [exists []; by rewrite app_nil_r|]. split; [|done].
    intros ref Href. rewrite map_lookup_imap.
    destruct (store w !! ref) as [d|]; [|done]. simpl.
    apply String.eqb_neq in Href. by rewrite Href.
Qed.

(** X8.  A completed provisioning leaves the user document equal to the
    payload laid over the document as it was: the nine payload fields
    (and no others) take the payload's values, so an earlier [isPremium]
    or [revealTokens] is reset to [false] and [0]; every other field of
    the earlier document stays. *)
Theorem provisioning_lays_payload_over_user_document
    (circles : list Document) (autoId : nat → string)
    (processInvites : WriteBatch → string → string → World → Settled unit * WriteBatch * World)
    (unreachable : option string) (fbUser : FirebaseUser) (ad : AdditionalData) (w : World) :
  onlyInvites processInvites →
  (createNewUserData circles autoId processInvites unreachable fbUser ad w).1 = Fulfilled tt →
  store (createNewUserData circles autoId processInvites unreachable fbUser ad w).2
    !! userDocRef fbUser
  = Some (newUser fbUser ad ∪ default ∅ (store w !! userDocRef fbUser))
  ∧ dom (newUser fbUser ad)
    = ({[ "displayName"; "firstName"; "lastName"; "displayName_lowercase"; "email";
          "photoUrl"; "createdAt"; "isPremium"; "revealTokens" ]} : gset string)
  ∧ fieldOf (store (createNewUserData circles autoId processInvites unreachable
                      fbUser ad w).2) (userDocRef fbUser) "isPremium" = Some (VBool false)
  ∧ fieldOf (store (createNewUserData circles autoId processInvites unreachable
                      fbUser ad w).2) (userDocRef fbUser) "revealTokens" = Some (VNumber 0).
Proof.
  intros Honly Hok.
  destruct (createNewUserData_fulfilled circles autoId processInvites unreachable
              fbUser ad w Honly Hok) as (_ & Hdoc & _ & _).
  split; [done|]. split; [apply newUser_fields|].
  unfold fieldOf. rewrite Hdoc. simpl. split.
  - apply lookup_union_Some_l, newUser_isPremium.
  - apply lookup_union_Some_l. unfold newUser.
    repeat (rewrite lookup_insert_ne by done). apply lookup_insert_eq.
Qed.

Lemma X8_witness :
  (createNewUserData defaultCircles idOf (processInvitesDirect None) None
     fbA adA worldPremium).1 = Fulfilled tt
  ∧ fieldOf (store worldPremium) (userDocRef fbA) "isPremium" = Some (VBool true)
  ∧ fieldOf (store (createNewUserData defaultCircles idOf (processInvitesDirect None) None
                      fbA adA worldPremium).2) (userDocRef fbA) "isPremium"
    = Some (VBool false).
Proof.
  split; [reflexivity|]. split; [reflexivity|].
  exact (proj1 (proj2 (proj2
    (provisioning_lays_payload_over_user_document defaultCircles idOf
       (processInvitesDirect None) None fbA adA worldPremium
       (onlyInvites_direct None) eq_refl)))).
Defined.

(** X9.  For an identity without an email (null or empty) the invite step
    is skipped: the outcome does not depend on the invite-processing
    function, the function draws one id per default circle, and it fails
    only when the commit does not reach the store, in which case the store
    is unchanged. *)
Theorem provisioning_without_email_skips_invites
    (circles : list Document) (autoId : nat → string)
    (processInvites : WriteBatch → string → string → World → Settled unit * WriteBatch * World)
    (unreachable : option string) (fbUser : FirebaseUser) (ad : AdditionalData) (w : World) :
  truthy_string (fb_email fbUser) = false →
  (∀ processInvites',
     createNewUserData circles autoId processInvites' unreachable fbUser ad w
     = createNewUserData circles autoId processInvites unreachable fbUser ad w)
  ∧ idsDrawn (createNewUserData circles autoId processInvites unreachable fbUser ad w).2
    = idsDrawn w + length circles
  ∧ match unreachable with
    | None =>
        (createNewUserData circles autoId processInvites unreachable fbUser ad w).1
        = Fulfilled tt
    | Some reason =>
        (createNewUserData circles autoId processInvites unreachable fbUser ad w).1
        = Rejected reason
        ∧ store (createNewUserData circles autoId processInvites unreachable fbUser ad w).2
          = store w
    end.
Proof.
  intros Hnone. unfold createNewUserData, processInvitesStep.
  rewrite stagedBatch_eq, Hnone. split; [done|].
  unfold commit. destruct unreachable as [reason|]; [done|]. simpl.
  destruct (apply_circleOps autoId fbUser circles (idsDrawn w)
              (<[userDocRef fbUser :=
                   merge_doc (default ∅ (store w !! userDocRef fbUser))
                             (newUser fbUser ad)]> (store w)))
    as (s1 & -> & _). done.
Qed.

Lemma X9_witness :
  truthy_string (fb_email fbGoogle) = false
  ∧ (createNewUserData defaultCircles idOf (processInvitesDirect (Some "down")) None
       fbGoogle noAdditionalData worldA).1 = Fulfilled tt.
Proof.
  split; [reflexivity|].
  exact (proj2 (proj2 (provisioning_without_email_skips_invites defaultCircles idOf
                         (processInvitesDirect (Some "down")) None fbGoogle
                         noAdditionalData worldA eq_refl))).
Defined.

(** X10.  After a completed provisioning, with distinct drawn ids, every
    default circle has its document under its drawn id: the new user is
    owner and only member and every other field is the default circle's
    own; and no document is changed other than the user's, these circle
    documents and invites. *)
Theorem provisioning_creates_each_default_circle_and_nothing_else
    (circles : list Document) (autoId : nat → string)
    (processInvites : WriteBatch → string → string → World → Settled unit * WriteBatch * World)
    (unreachable : option string) (fbUser : FirebaseUser) (ad : AdditionalData) (w : World) :
  onlyInvites processInvites →
  NoDup (autoId <$> seq (idsDrawn w) (length circles)) →
  (createNewUserData circles autoId processInvites unreachable fbUser ad w).1 = Fulfilled tt →
  (∀ i circleData, circles !! i = Some circleData →
     ∃ doc,
       store (createNewUserData circles autoId processInvites unreachable fbUser ad w).2
         !! ("circles", autoId (idsDrawn w + i)) = Some doc
       ∧ doc !! "ownerId" = Some (VString (uid fbUser))
       ∧ doc !! "memberIds" = Some (VArray [VString (uid fbUser)])
       ∧ ∀ k, k ≠ "ownerId" → k ≠ "memberIds" → doc !! k = circleData !! k)
  ∧ (∀ ref : DocRef,
       ref.1 ≠ "invites" → ref ≠ userDocRef fbUser →
       (∀ i, i < length circles → ref ≠ ("circles", autoId (idsDrawn w + i))) →
       store (createNewUserData circles autoId processInvites unreachable fbUser ad w).2 !! ref
       = store w !! ref).
Proof.
  intros Honly Hnodup Hok.
  destruct (createNewUserData_fulfilled circles autoId processInvites unreachable
              fbUser ad w Honly Hok) as (_ & _ & Hdocs & Hframe).
  split; [|done].
  intros i circleData Hi. exists (dataWithOwner fbUser circleData).
  split; [by apply Hdocs|].
  split; [apply dataWithOwner_ownerId|].
  split; [apply dataWithOwner_memberIds|].
  intros k. apply dataWithOwner_other.
Qed.

Lemma idOf_inj : Inj (=) (=) idOf.
Proof.
  intros a b Heq. unfold idOf in Heq.
  apply (inj (String.app "auto")) in Heq. by apply (inj pretty) in Heq.
Qed.

Lemma NoDup_autoId (autoId : nat → string) (n len : nat) :
  Inj (=) (=) autoId → NoDup (autoId <$> seq n len).
Proof. intros Hinj. apply NoDup_fmap_2; [done|]. apply NoDup_seq. Qed.

Lemma X10_witness :
  (createNewUserData defaultCircles idOf (processInvitesDirect None) None
     fbA adA worldPremium).1 = Fulfilled tt
  ∧ store (createNewUserData defaultCircles idOf (processInvitesDirect None) None
             fbA adA worldPremium).2 !! ("circles", "old")
    = store worldPremium !! ("circles", "old").
Proof.
  split; [reflexivity|].
  refine (proj2 (provisioning_creates_each_default_circle_and_nothing_else defaultCircles
                   idOf (processInvitesDirect None) None fbA adA worldPremium
                   (onlyInvites_direct None) (NoDup_autoId idOf _ _ idOf_inj) eq_refl)
            ("circles", "old") _ _ _).
  - discriminate.
  - discriminate.
  - intros i Hi. simpl in Hi.
    destruct i as [|[|[|[|i]]]]; [discriminate..|lia].
Defined.

(** X11.  Provisioning is not idempotent on circles: when the same
    identity is provisioned a second time, the second run draws ids of its
    own, so after both runs every default circle has two documents owned
    by the user, the one of the first run and the one of the second. *)
Theorem provisioning_twice_doubles_the_default_circles
    (circles : list Document) (autoId : nat → string)
    (processInvites : WriteBatch → string → string → World → Settled unit * WriteBatch * World)
    (unreachable : option string) (fbUser : FirebaseUser) (ad ad' : AdditionalData)
    (w : World) :
  onlyInvites processInvites →
  Inj (=) (=) autoId →
  (createNewUserData circles autoId processInvites unreachable fbUser ad w).1 = Fulfilled tt →
  (createNewUserData circles autoId processInvites unreachable fbUser ad'
     (createNewUserData circles autoId processInvites unreachable fbUser ad w).2).1
    = Fulfilled tt →
  ∀ i circleData, circles !! i = Some circleData →
    let w1 := (createNewUserData circles autoId processInvites unreachable fbUser ad w).2 in
    let w2 := (createNewUserData circles autoId processInvites unreachable fbUser ad' w1).2 in
    store w2 !! ("circles", autoId (idsDrawn w + i)) = Some (dataWithOwner fbUser circleData)
    ∧ store w2 !! ("circles", autoId (idsDrawn w1 + i)) = Some (dataWithOwner fbUser circleData)
    ∧ autoId (idsDrawn w + i) ≠ autoId (idsDrawn w1 + i).
Proof.
  intros Honly Hinj Hok1 Hok2 i circleData Hi. simpl.
  destruct (createNewUserData_fulfilled circles autoId processInvites unreachable
              fbUser ad w Honly Hok1) as (Hids & _ & Hdocs1 & _).
  destruct (createNewUserData_fulfilled circles autoId processInvites unreachable
              fbUser ad' _ Honly Hok2) as (_ & _ & Hdocs2 & Hframe2).
  set (w1 := (createNewUserData circles autoId processInvites unreachable fbUser ad w).2) in *.
  assert (i < length circles) as Hlt by (by eapply lookup_lt_Some).
  split; [|split].
  - rewrite Hframe2; [apply Hdocs1; [by apply NoDup_autoId|done]|done|done|].
    intros j Hj [= Heq]. apply Hinj in Heq. lia.
  - apply Hdocs2; [by apply NoDup_autoId|done].
  - intros Heq. apply Hinj in Heq. lia.
Qed.

Lemma X11_witness :
  (createNewUserData defaultCircles idOf (processInvitesDirect None) None fbA adA worldA).1
    = Fulfilled tt
  ∧ size (filter (λ kv, kv.1.1 = "circles")
            (store (createNewUserData defaultCircles idOf (processInvitesDirect None) None
                      fbA adA
                      (createNewUserData defaultCircles idOf (processInvitesDirect None)
                         None fbA adA worldA).2).2)) = 8
  ∧ idOf (idsDrawn worldA + 1)
    ≠ idOf (idsDrawn (createNewUserData defaultCircles idOf (processInvitesDirect None) None
                        fbA adA worldA).2 + 1).
Proof.
  split; [reflexivity|]. split; [vm_compute; reflexivity|].
  exact (proj2 (proj2
    (provisioning_twice_doubles_the_default_circles defaultCircles idOf
       (processInvitesDirect None) None fbA adA adA worldA
       (onlyInvites_direct None) idOf_inj eq_refl eq_refl
       1 {["name" := VString "Family"]} eq_refl))).
Defined.

(** * Further properties of the circle detail page *)

(** The row of the current user has no action area. *)
Lemma own_row_has_no_controls
    (currentUser : option User.t) (member : User.t) (circle : Circle.t)
    (currentUserId : string) (lastRatedAt : option Timestamp) :
  User.id member = currentUserId →
  actionArea (MemberListItem currentUser member circle currentUserId lastRatedAt) = None
  ∧ rowControls (MemberListItem currentUser member circle currentUserId lastRatedAt) = []
  ∧ rowActions (MemberListItem currentUser member circle currentUserId lastRatedAt) = [].
Proof.
  intros Hself. unfold rowActions, rowControls, MemberListItem. simpl.
  by rewrite (bool_decide_eq_true_2 _ Hself).
Qed.

(** The controls on the row of another member, by kind of circle. *)
Lemma rowControls_other_member currentUser member circle currentUserId lastRatedAt :
  User.id member ≠ currentUserId →
  rowControls (MemberListItem currentUser member circle currentUserId lastRatedAt)
  = (if decide (Circle.name circle = Family)
     then when (truthy_bool (currentUser ≫= User.isPremium))
            (SuggestGoalButton (CallOnSuggestGoal member))
     else match lastRatedAt with
          | Some t => [RatedLabel t;
                       RateLink (evaluateHref circle member) "Re-rate" "outline"]
          | None => [RateLink (evaluateHref circle member) "Rate" "default"]
          end)
    ++ when (bool_decide (Circle.ownerId circle = currentUserId))
         (RemoveButton (CallOnRemove member)).
Proof.
  intros Hother. rewrite rowControls_MemberListItem.
  rewrite bool_decide_eq_false_2 by done. unfold notFamily, when.
  destruct (decide (Circle.name circle = Family)) as [Hfam|Hfam].
  - rewrite (bool_decide_eq_true_2 _ Hfam). simpl. by destruct lastRatedAt.
  - rewrite (bool_decide_eq_false_2 _ Hfam). simpl. by destruct lastRatedAt.
Qed.

(** X12.  Members of a Family circle cannot be rated from the page: their
    rows carry no rate link and no rated label.  In any other circle the
    row of another member carries exactly one rate link, to
    /evaluate/<circle id>/<member id>, labelled Re-rate after an earlier
    rating and Rate before, and never a Suggest Goal button. *)
Theorem rate_link_on_every_row_outside_family
    (currentUser : option User.t) (member : User.t) (circle : Circle.t)
    (currentUserId : string) (lastRatedAt : option Timestamp) :
  User.id member ≠ currentUserId →
  let controls :=
    rowControls (MemberListItem currentUser member circle currentUserId lastRatedAt) in
  if decide (Circle.name circle = Family)
  then ∀ c, c ∈ controls → controlAction c ≠ Some (Navigate (evaluateHref circle member))
                           ∧ ∀ t, c ≠ RatedLabel t
  else omap (λ c, match c with
                  | RateLink h l _ => Some (h, l)
                  | _ => None
                  end) controls
       = [("/evaluate/" +:+ Circle.id circle +:+ "/" +:+ User.id member,
           if lastRatedAt is Some _ then "Re-rate" else "Rate")]
       ∧ ∀ a, SuggestGoalButton a ∉ controls.
Proof.
  intros Hother. simpl. rewrite rowControls_other_member by done. unfold when.
  destruct (decide (Circle.name circle = Family)).
  - intros c Hc. apply elem_of_app in Hc.
    destruct (truthy_bool _), (bool_decide _);
      repeat match goal with
             | H : _ ∨ _ |- _ => destruct H
             | H : _ ∈ _ :: _ |- _ => apply elem_of_cons in H as [->|H]
             | H : _ ∈ [] |- _ => by apply elem_of_nil in H
             end; by split.
  - split.
    + by destruct lastRatedAt, (bool_decide _).
    + intros a Ha. apply elem_of_app in Ha.
      destruct lastRatedAt, (bool_decide _);
        repeat match goal with
               | H : _ ∨ _ |- _ => destruct H
               | H : _ ∈ _ :: _ |- _ => apply elem_of_cons in H as [?|H]
               | H : _ ∈ [] |- _ => by apply elem_of_nil in H
               end; discriminate.
Qed.

Lemma X12_witness :
  User.id bob ≠ "u1"
  ∧ omap (λ c, match c with RateLink h l _ => Some (h, l) | _ => None end)
      (rowControls (MemberListItem (Some ann) bob annsFriends "u1" (Some epoch)))
    = [("/evaluate/c2/u2", "Re-rate")].
Proof.
  assert (User.id bob ≠ "u1") as Hother by discriminate.
  split; [exact Hother|].
  exact (proj1 (rate_link_on_every_row_outside_family (Some ann) bob annsFriends "u1"
                  (Some epoch) Hother)).
Defined.

(** X13.  A Suggest Goal button is on a row exactly when the row is
    another member's, the circle is a Family circle and the signed-in
    user is premium; it then calls [onSuggestGoal] with the row's member.
    A viewer who is not premium, or whose user record is not loaded, is
    offered no goal suggestion on any row. *)
Theorem suggest_goal_only_for_premium_viewer_in_family
    (currentUser : option User.t) (member : User.t) (circle : Circle.t)
    (currentUserId : string) (lastRatedAt : option Timestamp) :
  let row := MemberListItem currentUser member circle currentUserId lastRatedAt in
  ((∃ a, SuggestGoalButton a ∈ rowControls row)
     ↔ User.id member ≠ currentUserId ∧ Circle.name circle = Family
       ∧ ∃ u, currentUser = Some u ∧ User.isPremium u = Some true)
  ∧ (∀ a, SuggestGoalButton a ∈ rowControls row → a = CallOnSuggestGoal member)
  ∧ (truthy_bool (currentUser ≫= User.isPremium) = false →
     ∀ m, CallOnSuggestGoal m ∉ rowActions row).
Proof.
  simpl.
  assert (truthy_bool (currentUser ≫= User.isPremium) = true
          ↔ ∃ u, currentUser = Some u ∧ User.isPremium u = Some true) as Hprem.
  { destruct currentUser as [u|]; simpl.
    - split.
      + intros Ht. exists u. split; [done|].
        by destruct (User.isPremium u) as [[|]|].
      + by intros (u' & [= <-] & ->).
    - split; [done|]. by intros (? & ? & _). }
  assert (∀ a, SuggestGoalButton a
                 ∈ rowControls (MemberListItem currentUser member circle currentUserId
                                  lastRatedAt) →
               a = CallOnSuggestGoal member
               ∧ User.id member ≠ currentUserId ∧ Circle.name circle = Family
               ∧ truthy_bool (currentUser ≫= User.isPremium) = true) as Hshape.
  { intros a Ha.
    destruct (decide (User.id member = currentUserId)) as [Hself|Hother].
    { rewrite (proj1 (proj2 (own_row_has_no_controls currentUser member circle
                               currentUserId lastRatedAt Hself))) in Ha.
      by apply elem_of_nil in Ha. }
    rewrite rowControls_other_member in Ha by done. unfold when in Ha.
    apply elem_of_app in Ha.
    destruct (decide (Circle.name circle = Family)),
      (truthy_bool (currentUser ≫= User.isPremium)), lastRatedAt, (bool_decide _);
      repeat match goal with
             | H : _ ∨ _ |- _ => destruct H
             | H : _ ∈ _ :: _ |- _ => apply elem_of_cons in H as [?|H]
             | H : _ ∈ [] |- _ => by apply elem_of_nil in H
             end; try discriminate;
      match goal with H : SuggestGoalButton _ = _ |- _ => injection H as -> end; done. }
  split; [|split].
  - split.
    + intros [a Ha]. destruct (Hshape a Ha) as (_ & ? & ? & ?). by rewrite <-Hprem.
    + intros (Hother & Hfam & Hp). apply Hprem in Hp.
      exists (CallOnSuggestGoal member).
      rewrite rowControls_other_member by done.
      rewrite decide_True, Hp by done. simpl. by left.
  - intros a Ha. by destruct (Hshape a Ha).
  - intros Hfree m Hm. unfold rowActions in Hm.
    apply list_elem_of_omap in Hm as (c & Hc & Hact).
    destruct c as [t|h l v|a|a]; simpl in Hact; try discriminate.
    + injection Hact as ->. destruct (Hshape _ Hc) as (_ & _ & _ & Hp). congruence.
    + injection Hact as ->.
      destruct (decide (User.id member = currentUserId)) as [Hself|Hother].
      { rewrite (proj1 (proj2 (own_row_has_no_controls currentUser member circle
                                 currentUserId lastRatedAt Hself))) in Hc.
        by apply elem_of_nil in Hc. }
      rewrite rowControls_other_member in Hc by done. unfold when in Hc.
      apply elem_of_app in Hc.
      destruct (decide (Circle.name circle = Family)),
        (truthy_bool (currentUser ≫= User.isPremium)), lastRatedAt, (bool_decide _);
        repeat match goal with
               | H : _ ∨ _ |- _ => destruct H
               | H : _ ∈ _ :: _ |- _ => apply elem_of_cons in H as [?|H]
               | H : _ ∈ [] |- _ => by apply elem_of_nil in H
               end; discriminate.
Qed.

(** X14.  Whatever a row offers acts on that row's member and on no one
    else: removal and goal suggestion are called with the row's member,
    and the only link leads to the rating page of that member in that
    circle. *)
Theorem row_actions_target_the_rows_member
    (currentUser : option User.t) (member : User.t) (circle : Circle.t)
    (currentUserId : string) (lastRatedAt : option Timestamp) (a : Action) :
  a ∈ rowActions (MemberListItem currentUser member circle currentUserId lastRatedAt) →
  a = CallOnRemove member ∨ a = CallOnSuggestGoal member
  ∨ a = Navigate ("/evaluate/" +:+ Circle.id circle +:+ "/" +:+ User.id member).
Proof.
  unfold rowActions. intros (c & Hc & Hact)%list_elem_of_omap.
  rewrite rowControls_MemberListItem in Hc. unfold when in Hc.
  destruct (bool_decide (User.id member = currentUserId));
    [by apply elem_of_nil in Hc|].
  rewrite !elem_of_app in Hc.
  destruct lastRatedAt, (notFamily circle), (bool_decide _ && _), (bool_decide _);
    repeat match goal with
           | H : _ ∨ _ |- _ => destruct H
           | H : _ ∈ _ :: _ |- _ => apply elem_of_cons in H as [->|H]
           | H : _ ∈ [] |- _ => by apply elem_of_nil in H
           end; simpl in Hact; try discriminate; injection Hact as <-; auto.
Qed.

Lemma X14_witness :
  CallOnRemove bob ∈ rowActions (MemberListItem (Some ann) bob annsFamily "u1" None)
  ∧ (CallOnRemove bob = CallOnRemove bob ∨ CallOnRemove bob = CallOnSuggestGoal bob
     ∨ CallOnRemove bob = Navigate ("/evaluate/" +:+ Circle.id annsFamily +:+ "/" +:+ User.id bob)).
Proof.
  assert (CallOnRemove bob ∈ rowActions (MemberListItem (Some ann) bob annsFamily "u1" None))
    as Hin by (right; left).
  split; [exact Hin|].
  exact (row_actions_target_the_rows_member (Some ann) bob annsFamily "u1" None
           (CallOnRemove bob) Hin).
Defined.

(** X15.  The owner of a circle finds on the row of every other member
    exactly one Remove button, the last control of the row, and it calls
    [onRemove] with that member; this does not depend on the kind of
    circle, on an earlier rating or on the viewer's tier. *)
Theorem owner_has_one_remove_button_per_other_member
    (currentUser : option User.t) (member : User.t) (circle : Circle.t)
    (currentUserId : string) (lastRatedAt : option Timestamp) :
  Circle.ownerId circle = currentUserId →
  User.id member ≠ currentUserId →
  List.filter isRemoveButton
    (rowControls (MemberListItem currentUser member circle currentUserId lastRatedAt))
    = [RemoveButton (CallOnRemove member)]
  ∧ last (rowControls (MemberListItem currentUser member circle currentUserId lastRatedAt))
    = Some (RemoveButton (CallOnRemove member))
  ∧ List.filter isRemoval
      (rowActions (MemberListItem currentUser member circle currentUserId lastRatedAt))
    = [CallOnRemove member].
Proof.
  intros Hown Hother. unfold rowActions.
  rewrite rowControls_other_member by done.
  rewrite (bool_decide_eq_true_2 _ Hown). unfold when.
  by destruct (decide (Circle.name circle = Family)),
       (truthy_bool (currentUser ≫= User.isPremium)), lastRatedAt.
Qed.

Lemma X15_witness :
  Circle.ownerId annsFriends = "u1" ∧ User.id bob ≠ "u1"
  ∧ List.filter isRemoval (rowActions (MemberListItem None bob annsFriends "u1" None))
    = [CallOnRemove bob].
Proof.
  assert (User.id bob ≠ "u1") as Hother by discriminate.
  split; [reflexivity|]. split; [exact Hother|].
  exact (proj2 (proj2 (owner_has_one_remove_button_per_other_member None bob annsFriends
                         "u1" None eq_refl Hother))).
Defined.

(** X16.  When [onSend] is rejected, [handleSend] is rejected with the
    same reason after that one call, and the dialog is left as it was
    except that it is submitting: it is not closed and [isSubmitting] is
    not reset.  The handler closes an open dialog only after a fulfilled
    [onSend]. *)
Theorem rejected_send_leaves_the_dialog_submitting
    (onSend : string → World → Settled unit * World) (d : Dialog) (w : World)
    (reason : string) :
  selectedTrait d ≠ "" →
  (onSend (selectedTrait d) w).1 = Rejected reason →
  handleSend onSend d w
    = mkSent [selectedTrait d] (Rejected reason)
             (mkDialog (isOpen d) (selectedTrait d) true) (onSend (selectedTrait d) w).2
  ∧ (∀ onSend' d' w',
       isOpen d' = true → isOpen (dialog (handleSend onSend' d' w')) = false →
       selectedTrait d' ≠ "" ∧ (onSend' (selectedTrait d') w').1 = Fulfilled tt
       ∧ settled (handleSend onSend' d' w') = Fulfilled tt).
Proof.
  intros Hsome Hrej. split.
  - rewrite handleSend_with_trait by done. by rewrite Hrej.
  - intros onSend' d' w' Hopen Hclosed.
    destruct (decide (selectedTrait d' = "")) as [Hnone|Hsome'].
    + rewrite handleSend_without_trait in Hclosed by done. simpl in Hclosed. congruence.
    + rewrite handleSend_with_trait in Hclosed |- * by done.
      destruct (onSend' (selectedTrait d') w').1 as [[]|r]; simpl in *; [done|congruence].
Qed.

Lemma X16_witness :
  selectedTrait (setSelectedTrait "Patience" openedDialog) ≠ ""
  ∧ handleSend onSendDown (setSelectedTrait "Patience" openedDialog) worldA
    = mkSent ["Patience"] (Rejected "unavailable") (mkDialog true "Patience" true) worldA.
Proof.
  assert (selectedTrait (setSelectedTrait "Patience" openedDialog) ≠ "") as Hsome
    by discriminate.
  split; [exact Hsome|].
  exact (proj1 (rejected_send_leaves_the_dialog_submitting onSendDown
                  (setSelectedTrait "Patience" openedDialog) worldA "unavailable"
                  Hsome eq_refl)).
Defined.

(** X17.  [handleSend] never changes the selected trait and calls
    [onSend] at most once, with the selected trait.  So the choice
    survives a completed send: when the page opens the dialog again,
    sending goes through at once and [onSend] is called a second time
    with the same trait. *)
Theorem selected_trait_survives_a_send
    (onSend : string → World → Settled unit * World) (d : Dialog) (w : World) :
  selectedTrait d ≠ "" →
  (∀ t w', (onSend t w').1 = Fulfilled tt) →
  selectedTrait (dialog (handleSend onSend d w)) = selectedTrait d
  ∧ onSendCalls (handleSend onSend d w) = [selectedTrait d]
  ∧ onSendCalls (sendTwice onSend d w) = [selectedTrait d; selectedTrait d]
  ∧ dialog (sendTwice onSend d w) = mkDialog false (selectedTrait d) false
  ∧ (∀ onSend' d' w',
       selectedTrait (dialog (handleSend onSend' d' w')) = selectedTrait d'
       ∧ (onSendCalls (handleSend onSend' d' w') = []
          ∨ onSendCalls (handleSend onSend' d' w') = [selectedTrait d'])).
Proof.
  intros Hsome Hok.
  assert (handleSend onSend d w
          = mkSent [selectedTrait d] (Fulfilled tt) (mkDialog false (selectedTrait d) false)
                   (onSend (selectedTrait d) w).2) as H1.
  { rewrite handleSend_with_trait by done. by rewrite Hok. }
  split; [by rewrite H1|]. split; [by rewrite H1|].
  unfold sendTwice. rewrite H1. simpl.
  rewrite handleSend_with_trait by done. simpl. rewrite Hok. simpl.
  split; [done|]. split; [done|].
  intros onSend' d' w'.
  destruct (decide (selectedTrait d' = "")) as [Hnone|Hsome'].
  - rewrite handleSend_without_trait by done. auto.
  - rewrite handleSend_with_trait by done.
    destruct (onSend' (selectedTrait d') w').1; auto.
Qed.

Lemma X17_witness :
  selectedTrait (setSelectedTrait "Patience" openedDialog) ≠ ""
  ∧ (∀ t w', (onSendOk t w').1 = Fulfilled tt)
  ∧ onSendCalls (sendTwice onSendOk (setSelectedTrait "Patience" openedDialog) worldA)
    = ["Patience"; "Patience"].
Proof.
  assert (selectedTrait (setSelectedTrait "Patience" openedDialog) ≠ "") as Hsome
    by discriminate.
  assert (∀ t w', (onSendOk t w').1 = Fulfilled tt) as Hok by reflexivity.
  split; [exact Hsome|]. split; [exact Hok|].
  exact (proj1 (proj2 (proj2 (selected_trait_survives_a_send onSendOk
                                (setSelectedTrait "Patience" openedDialog) worldA
                                Hsome Hok)))).
Defined.

(** * The display name built from the form fields *)





